(** * Label Extraction Service: [main.py]

    A shallow embedding of the FastAPI handler [parse_label] and of
    [call_gemini], with the parts of the Python runtime they call:
    [str.strip], [str.startswith], [str.lower], [str.find], [str.rfind],
    slicing, [json.loads], subscripting and [dict.get].

    Conventions.
    - A Python [str] is a list of Unicode code points ([text]).
    - [json.loads] follows CPython's scanner ([scan_once], [scanstring],
      the number matcher, the object and array loops).  The interpreter's
      resource limits are outside the model: a text either parses or
      raises [JSONDecodeError].  CPython raises something else on an
      integer literal of more than 4300 digits ([ValueError], since
      Python 3.11), on nesting deeper than the recursion limit
      ([RecursionError]) and when memory runs out; on such texts the
      model still answers by syntax alone, so a statement on a text is a
      statement on the texts within these limits.
    - A float is kept as the exact decimal it was written as; Python's
      float is the binary64 rounding of that decimal.
    - The outbound HTTP call is an oracle of the [World]; every call made
      is recorded in a log.
    - The route is the handler followed by the validation against the
      declared response model.  What the route returns here is the
      validated value; its rendering as the JSON of the HTTP response
      (where a float that is not finite becomes [null]) is outside the
      model.

    The file has the model first, then the predicates of the proofs, the
    lemmas on the scanner, and the theorems on the repair step and on the
    operation. *)

From Stdlib Require Import Ascii String List NArith ZArith Bool Lia.
Import ListNotations.

Local Open Scope N_scope.

(* ===================================================================== *)
(** ** Text: Python [str] *)
(* ===================================================================== *)

Definition text := list N.

(** [lit] writes an ASCII text as a Rocq string: every character is its
    code point, except that a single quote stands for the double quote (34)
    and the two characters backslash, n stand for the line feed (10). *)
Fixpoint lit (s : string) : text :=
  match s with
  | EmptyString => []
  | String a r =>
      if Ascii.eqb a "'"%char then 34 :: lit r
      else if Ascii.eqb a "\"%char then
        match r with
        | String b r' =>
            if Ascii.eqb b "n"%char then 10 :: lit r' else 92 :: lit r
        | EmptyString => [92]
        end
      else N_of_ascii a :: lit r
  end.

Fixpoint text_eqb (a b : text) : bool :=
  match a, b with
  | [], [] => true
  | x :: a', y :: b' => (x =? y) && text_eqb a' b'
  | _, _ => false
  end.

Fixpoint drop_while (p : N -> bool) (s : text) : text :=
  match s with
  | [] => []
  | c :: t => if p c then drop_while p t else s
  end.

(** [str.isspace] of one code point, as CPython's [Py_UNICODE_ISSPACE]. *)
Definition py_isspace (c : N) : bool :=
  ((9 <=? c) && (c <=? 13)) || ((28 <=? c) && (c <=? 32))
  || (c =? 133) || (c =? 160) || (c =? 5760)
  || ((8192 <=? c) && (c <=? 8202))
  || (c =? 8232) || (c =? 8233) || (c =? 8239) || (c =? 8287)
  || (c =? 12288).

Definition lstrip_with (p : N -> bool) (s : text) : text := drop_while p s.
Definition rstrip_with (p : N -> bool) (s : text) : text :=
  rev (drop_while p (rev s)).
Definition strip_with (p : N -> bool) (s : text) : text :=
  rstrip_with p (lstrip_with p s).

(** [s.strip()] *)
Definition strip (s : text) : text := strip_with py_isspace s.

(** [s.strip(chars)] *)
Definition strip_chars (chars s : text) : text :=
  strip_with (fun c => existsb (N.eqb c) chars) s.

(** [s.startswith(p)] *)
Fixpoint startswith (s p : text) {struct p} : bool :=
  match p with
  | [] => true
  | x :: p' =>
      match s with
      | y :: s' => (x =? y) && startswith s' p'
      | [] => false
      end
  end.

(** [s.lower()] on the ASCII letters.  No other code point has a lowercase
    mapping that begins with an ASCII letter among j, s, o, n, so
    [startswith (lower s) (lit "json")] is what Python computes. *)
Definition lower_cp (c : N) : N :=
  if (65 <=? c) && (c <=? 90) then c + 32 else c.
Definition lower (s : text) : text := map lower_cp s.

(** [s.find(c)] and [s.rfind(c)] for a one-character needle: the index, or
    [-1]. *)
Fixpoint find (c : N) (s : text) : Z :=
  match s with
  | [] => (-1)%Z
  | x :: t =>
      if x =? c then 0%Z
      else let r := find c t in if (r =? -1)%Z then (-1)%Z else (r + 1)%Z
  end.

Fixpoint rfind (c : N) (s : text) : Z :=
  match s with
  | [] => (-1)%Z
  | x :: t =>
      let r := rfind c t in
      if (r =? -1)%Z then (if x =? c then 0%Z else (-1)%Z) else (r + 1)%Z
  end.

(** [s[a:b]] for [0 <= a]. *)
Definition slice (s : text) (a b : Z) : text :=
  firstn (Z.to_nat (b - a)) (skipn (Z.to_nat a) s).

(** [s[n:]] *)
Definition slice_from (s : text) (n : nat) : text := skipn n s.

(** [s[:n]] *)
Definition slice_to (s : text) (n : nat) : text := firstn n s.

(* ===================================================================== *)
(** ** JSON values: what [json.loads] returns *)
(* ===================================================================== *)

(** A Python float read from a literal. [FDec neg m e] is the binary64
    rounding of [(-1)^neg * m * 10^e]. *)
Inductive pyfloat :=
| FNaN
| FInf (neg : bool)
| FDec (neg : bool) (mant : N) (exp10 : Z).

(** A [dict] is kept in insertion order, one entry per key. *)
#[warnings="-register-all"]
Inductive json :=
| JNull
| JBool (b : bool)
| JInt (z : Z)
| JFloat (f : pyfloat)
| JString (s : text)
| JArray (l : list json)
| JObject (d : list (text * json)).

Definition pydict := list (text * json).

(** [d[k] = v] *)
Fixpoint dict_set (d : pydict) (k : text) (v : json) : pydict :=
  match d with
  | [] => [(k, v)]
  | (k', v') :: d' =>
      if text_eqb k k' then (k', v) :: d' else (k', v') :: dict_set d' k v
  end.

(** [d.get(k)], [None] when the key is missing *)
Fixpoint dict_lookup (d : pydict) (k : text) : option json :=
  match d with
  | [] => None
  | (k', v) :: d' => if text_eqb k k' then Some v else dict_lookup d' k
  end.

(** A float literal that rounds to zero: no nonzero digit, or a magnitude
    of at most [2^-1075]. *)
Definition float_is_zero (f : pyfloat) : bool :=
  match f with
  | FNaN | FInf _ => false
  | FDec _ m e =>
      (m =? 0)
      || ((e <? 0)%Z && (Z.of_N m * 2 ^ 1075 <=? 10 ^ (- e))%Z)
  end.

(** [bool(v)] *)
Definition truthy (v : json) : bool :=
  match v with
  | JNull => false
  | JBool b => b
  | JInt z => negb (z =? 0)%Z
  | JFloat f => negb (float_is_zero f)
  | JString s => match s with [] => false | _ => true end
  | JArray l => match l with [] => false | _ => true end
  | JObject d => match d with [] => false | _ => true end
  end.

Definition is_object (v : json) : bool :=
  match v with JObject _ => true | _ => false end.

(* ===================================================================== *)
(** ** [json.loads]: the scanner *)
(* ===================================================================== *)

(** The decoder's whitespace: space, tab, line feed, carriage return. *)
Definition is_json_ws (c : N) : bool :=
  (c =? 32) || (c =? 9) || (c =? 10) || (c =? 13).

Definition skip_ws (s : text) : text := drop_while is_json_ws s.

Definition is_digit (c : N) : bool := (48 <=? c) && (c <=? 57).

(** The longest run of digits at the front, and what follows it. *)
Fixpoint span_digits (s : text) : text * text :=
  match s with
  | c :: t =>
      if is_digit c then let (ds, r) := span_digits t in (c :: ds, r)
      else ([], s)
  | [] => ([], [])
  end.

Definition digits_val (ds : text) : N :=
  fold_left (fun acc d => 10 * acc + (d - 48)) ds 0.

(** [s] without the prefix [p], when it starts with it. *)
Fixpoint strip_prefix (p s : text) : option text :=
  match p with
  | [] => Some s
  | x :: p' =>
      match s with
      | y :: s' => if x =? y then strip_prefix p' s' else None
      | [] => None
      end
  end.

Definition kw_null : text := Eval cbv in lit "null".
Definition kw_true : text := Eval cbv in lit "true".
Definition kw_false : text := Eval cbv in lit "false".
Definition kw_nan : text := Eval cbv in lit "NaN".
Definition kw_inf : text := Eval cbv in lit "Infinity".
Definition kw_neginf : text := Eval cbv in lit "-Infinity".

(** The literal names of [scan_once]. *)
Definition scan_constant (s : text) : option (json * text) :=
  match strip_prefix kw_null s with
  | Some r => Some (JNull, r)
  | None =>
  match strip_prefix kw_true s with
  | Some r => Some (JBool true, r)
  | None =>
  match strip_prefix kw_false s with
  | Some r => Some (JBool false, r)
  | None =>
  match strip_prefix kw_nan s with
  | Some r => Some (JFloat FNaN, r)
  | None =>
  match strip_prefix kw_inf s with
  | Some r => Some (JFloat (FInf false), r)
  | None =>
  match strip_prefix kw_neginf s with
  | Some r => Some (JFloat (FInf true), r)
  | None => None
  end end end end end end.

(** The fraction of a number: a dot and at least one digit. *)
Definition match_frac (s : text) : text * text :=
  match s with
  | d :: x :: t =>
      if (d =? 46) && is_digit x
      then let (ds, r) := span_digits t in (x :: ds, r)
      else ([], s)
  | _ => ([], s)
  end.

(** The exponent of a number: e or E, a sign or none, at least one digit;
    the matcher backs up to the e when no digit follows. *)
Definition match_exp (s : text) : option (bool * text) * text :=
  match s with
  | e :: t =>
      if (e =? 101) || (e =? 69) then
        let (eneg, t') :=
          match t with
          | sg :: t1 =>
              if sg =? 45 then (true, t1)
              else if sg =? 43 then (false, t1)
              else (false, t)
          | [] => (false, t)
          end in
        let (ds, r) := span_digits t' in
        match ds with
        | [] => (None, s)
        | _ :: _ => (Some (eneg, ds), r)
        end
      else (None, s)
  | [] => (None, s)
  end.

Definition number_value (neg : bool) (ids fds : text)
    (ex : option (bool * text)) : json :=
  match fds, ex with
  | [], None =>
      JInt (if neg then (- Z.of_N (digits_val ids))%Z
            else Z.of_N (digits_val ids))
  | _, _ =>
      let e := match ex with
               | Some (eneg, eds) =>
                   if eneg then (- Z.of_N (digits_val eds))%Z
                   else Z.of_N (digits_val eds)
               | None => 0%Z
               end in
      JFloat (FDec neg (digits_val (ids ++ fds))
                   (e - Z.of_nat (length fds))%Z)
  end.

(** The integer part: a zero, or a digit from 1 to 9 and any digits. *)
Definition match_int (s : text) : option (text * text) :=
  match s with
  | [] => None
  | c :: t =>
      if (49 <=? c) && (c <=? 57)
      then let (ds, r) := span_digits t in Some (c :: ds, r)
      else if c =? 48 then Some ([c], t)
      else None
  end.

Definition match_unsigned (neg : bool) (s : text) : option (json * text) :=
  match match_int s with
  | None => None
  | Some (ids, r1) =>
      let (fds, r2) := match_frac r1 in
      let (ex, r3) := match_exp r2 in
      Some (number_value neg ids fds ex, r3)
  end.

(** The number matcher: an optional minus sign, the integer part, an
    optional fraction, an optional exponent. *)
Definition match_number (s : text) : option (json * text) :=
  match s with
  | c :: t =>
      if c =? 45 then match_unsigned true t else match_unsigned false s
  | [] => None
  end.

Definition hexval (c : N) : option N :=
  if is_digit c then Some (c - 48)
  else if (97 <=? c) && (c <=? 102) then Some (c - 87)
  else if (65 <=? c) && (c <=? 70) then Some (c - 55)
  else None.

Definition hex4 (a b c d : N) : option N :=
  match hexval a, hexval b, hexval c, hexval d with
  | Some x, Some y, Some z, Some w => Some (((x * 16 + y) * 16 + z) * 16 + w)
  | _, _, _, _ => None
  end.

Definition is_high_surrogate (u : N) : bool := (55296 <=? u) && (u <=? 56319).
Definition is_low_surrogate (u : N) : bool := (56320 <=? u) && (u <=? 57343).
Definition join_surrogates (u u2 : N) : N :=
  65536 + N.lor (N.shiftl (u - 55296) 10) (u2 - 56320).

(** The one-character escapes after a backslash. *)
Definition unescape (e : N) : option N :=
  if e =? 34 then Some 34
  else if e =? 92 then Some 92
  else if e =? 47 then Some 47
  else if e =? 98 then Some 8
  else if e =? 102 then Some 12
  else if e =? 110 then Some 10
  else if e =? 114 then Some 13
  else if e =? 116 then Some 9
  else None.

(** [scanstring], strict, entered after the opening quote: the decoded
    string and what follows the closing quote. *)
Fixpoint scanstring (s : text) (acc : text) : option (text * text) :=
  match s with
  | [] => None
  | c :: t =>
      if c =? 34 then Some (acc, t)
      else if c =? 92 then
        match t with
        | [] => None
        | e :: t1 =>
            if e =? 117 then
              match t1 with
              | a :: b :: c1 :: d :: t2 =>
                  match hex4 a b c1 d with
                  | None => None
                  | Some u =>
                      if is_high_surrogate u then
                        match t2 with
                        | bs :: uu :: a2 :: b2 :: c2 :: d2 :: t4 =>
                            if (bs =? 92) && (uu =? 117) then
                              match hex4 a2 b2 c2 d2 with
                              | None => None
                              | Some u2 =>
                                  if is_low_surrogate u2
                                  then scanstring t4
                                         (acc ++ [join_surrogates u u2])
                                  else scanstring t2 (acc ++ [u])
                              end
                            else scanstring t2 (acc ++ [u])
                        | _ => scanstring t2 (acc ++ [u])
                        end
                      else scanstring t2 (acc ++ [u])
                  end
              | _ => None
              end
            else
              match unescape e with
              | Some x => scanstring t1 (acc ++ [x])
              | None => None
              end
        end
      else if c <? 32 then None
      else scanstring t (acc ++ [c])
  end.

(** The outcome of a scanner that runs on fuel. *)
Inductive res (A : Type) :=
| Ok (a : A) (rest : text)
| Fail
| NoFuel.
Arguments Ok {A} a rest.
Arguments Fail {A}.
Arguments NoFuel {A}.

(** One value at the front of [s], as [scan_once] of the C scanner
    dispatches on the first character. [array] and [object] are the loops
    over the elements, entered behind the opening bracket and the
    whitespace after it, when the container is not empty. *)
Definition scan_value (array object : text -> res json) (s : text)
    : res json :=
  match s with
  | [] => Fail
  | c :: t =>
      if c =? 34 then
        match scanstring t [] with
        | Some (str, r) => Ok (JString str) r
        | None => Fail
        end
      else if c =? 123 then
        match skip_ws t with
        | c' :: r =>
            if c' =? 125 then Ok (JObject []) r else object (c' :: r)
        | [] => Fail
        end
      else if c =? 91 then
        match skip_ws t with
        | c' :: r =>
            if c' =? 93 then Ok (JArray []) r else array (c' :: r)
        | [] => Fail
        end
      else
        match scan_constant s with
        | Some (v, r) => Ok v r
        | None =>
            match match_number s with
            | Some (v, r) => Ok v r
            | None => Fail
            end
        end
  end.

(** One round of the array loop: an element, then a closing bracket or a
    comma and the next round. *)
Definition array_step (scan : text -> res json)
    (loop : list json -> text -> res json) (acc : list json) (s : text)
    : res json :=
  match scan s with
  | Ok v r =>
      match skip_ws r with
      | c :: r' =>
          if c =? 93 then Ok (JArray (acc ++ [v])) r'
          else if c =? 44 then loop (acc ++ [v]) (skip_ws r')
          else Fail
      | [] => Fail
      end
  | Fail => Fail
  | NoFuel => NoFuel
  end.

(** One round of the object loop: a key in double quotes, a colon, a
    value, then a closing brace or a comma and the next round. *)
Definition object_step (scan : text -> res json)
    (loop : pydict -> text -> res json) (d : pydict) (s : text)
    : res json :=
  match s with
  | [] => Fail
  | q :: t =>
      if q =? 34 then
        match scanstring t [] with
        | None => Fail
        | Some (k, r) =>
            match skip_ws r with
            | [] => Fail
            | c :: r1 =>
                if c =? 58 then
                  match scan (skip_ws r1) with
                  | Ok v r2 =>
                      match skip_ws r2 with
                      | c' :: r3 =>
                          if c' =? 125
                          then Ok (JObject (dict_set d k v)) r3
                          else if c' =? 44
                          then loop (dict_set d k v) (skip_ws r3)
                          else Fail
                      | [] => Fail
                      end
                  | Fail => Fail
                  | NoFuel => NoFuel
                  end
                else Fail
            end
        end
      else Fail
  end.

Fixpoint scan_once (fuel : nat) (s : text) {struct fuel} : res json :=
  match fuel with
  | O => NoFuel
  | S n => scan_value (parse_array n []) (parse_object n []) s
  end

with parse_array (fuel : nat) (acc : list json) (s : text) {struct fuel}
    : res json :=
  match fuel with
  | O => NoFuel
  | S n => array_step (scan_once n) (parse_array n) acc s
  end

with parse_object (fuel : nat) (d : pydict) (s : text) {struct fuel}
    : res json :=
  match fuel with
  | O => NoFuel
  | S n => object_step (scan_once n) (parse_object n) d s
  end.

(** Fuel that is never used up on [s] (lemma [scan_once_fuel]). *)
Definition fuel_for (s : text) : nat := 2 * length s + 1.

(** [json.loads(s)]: [None] is [JSONDecodeError]. *)
Definition json_loads (s : text) : option json :=
  if startswith s [65279] then None
  else
    let s' := skip_ws s in
    match scan_once (fuel_for s') s' with
    | Ok v r => match skip_ws r with [] => Some v | _ :: _ => None end
    | Fail => None
    | NoFuel => None
    end.

(* ===================================================================== *)
(** ** Exceptions, the world and the monad of the handler *)
(* ===================================================================== *)

(** The exceptions that can leave the code. [HTTPException] is FastAPI's;
    [ResponseJSONDecodeError] is what [resp.json()] raises;
    [ResponseValidationError] is raised by FastAPI when the returned value
    does not validate against the declared [response_model]. *)
Inductive exn :=
| HTTPException (status_code : Z) (detail : text)
| KeyError
| IndexError
| TypeError
| AttributeError
| ResponseJSONDecodeError
| ResponseValidationError.

Inductive outcome (A : Type) :=
| Return (a : A)
| Raise (e : exn).
Arguments Return {A} a.
Arguments Raise {A} e.

(** One call of [requests.post]. [data] is the payload; the bytes sent are
    [json.dumps] of it. *)
Record Request := mkRequest {
  url : text;
  params_key : text;
  content_type : text;
  data : json;
  timeout : Z
}.

(** What [requests.post] does: raise a [RequestException] with a message,
    or return a response with its status code and its body as text. *)
Inductive post_result :=
| RequestException (msg : text)
| Response (status_code : Z) (resp_text : text).

(** The process environment and the remote end. *)
Record World := mkWorld {
  environ : text -> option text;
  remote : Request -> post_result
}.

(** A computation reads the world, appends to the log of requests sent and
    returns or raises. *)
Definition M (A : Type) : Type :=
  World -> list Request -> outcome A * list Request.

Definition ret {A} (a : A) : M A := fun _ log => (Return a, log).
Definition raise {A} (e : exn) : M A := fun _ log => (Raise e, log).
Definition bind {A B} (m : M A) (k : A -> M B) : M B :=
  fun w log =>
    match m w log with
    | (Return a, log') => k a w log'
    | (Raise e, log') => (Raise e, log')
    end.
Definition lift {A} (o : outcome A) : M A := fun _ log => (o, log).

Notation "x <- m ;; k" := (bind m (fun x => k))
  (at level 61, m at next level, right associativity).

(** [os.getenv(k)] *)
Definition os_getenv (k : text) : M (option text) :=
  fun w log => (Return (environ w k), log).

(** [requests.post(...)]: the request goes out, then the remote end
    answers. *)
Definition requests_post (r : Request) : M post_result :=
  fun w log => (Return (remote w r), log ++ [r]).

(** Running a computation from an empty log. *)
Definition run {A} (m : M A) (w : World) : outcome A * list Request :=
  m w [].

(* ===================================================================== *)
(** ** Subscripts and [get] on JSON values *)
(* ===================================================================== *)

(** [v[k]] for a string key *)
Definition getitem_key (v : json) (k : text) : outcome json :=
  match v with
  | JObject d =>
      match dict_lookup d k with
      | Some x => Return x
      | None => Raise KeyError
      end
  | _ => Raise TypeError
  end.

(** [v[0]]: the first element of a list, the first character of a string;
    a dict from JSON has no integer key. *)
Definition getitem_0 (v : json) : outcome json :=
  match v with
  | JArray (x :: _) => Return x
  | JArray [] => Raise IndexError
  | JString (c :: _) => Return (JString [c])
  | JString [] => Raise IndexError
  | JObject _ => Raise KeyError
  | _ => Raise TypeError
  end.

(** [d.get(k)] on a dict: the value, or [None]. *)
Definition dict_get (d : pydict) (k : text) : json :=
  match dict_lookup d k with
  | Some x => x
  | None => JNull
  end.

(** [v.get(k)]: only a dict has the method. *)
Definition py_get (v : json) (k : text) : outcome json :=
  match v with
  | JObject d => Return (dict_get d k)
  | _ => Raise AttributeError
  end.

(** [a or b] *)
Definition py_or (a b : json) : json := if truthy a then a else b.

Definition obind {A B} (o : outcome A) (k : A -> outcome B) : outcome B :=
  match o with
  | Return a => k a
  | Raise e => Raise e
  end.

Notation "x <-- o ;;; k" := (obind o (fun x => k))
  (at level 61, o at next level, right associativity).

(* ===================================================================== *)
(** ** [call_gemini] *)
(* ===================================================================== *)

Definition GEMINI_ENDPOINT : text :=
  lit "https://generativelanguage.googleapis.com/v1beta/models/gemini-1.5-flash-latest:generateContent".

Definition SYSTEM_INSTRUCTIONS : text :=
  lit "You are a nutrition and supplement label parser. Extract structured data as JSON. "
  ++ lit "When values are given per serving, try to compute per 100 g if serving mass in grams is present. "
  ++ lit "Return a compact JSON only, no extra commentary. Keys: name, serving_size_g (number or null), per_100g (object), per_serving (object or null), notes (string). "
  ++ lit "per_100g should include as available: calories_kcal, protein_g, carbs_g, sugar_g, fiber_g, fat_g, saturated_fat_g, trans_fat_g, sodium_mg, potassium_mg, cholesterol_mg, calcium_mg, iron_mg, vitamin_c_mg, vitamin_d_ug, vitamin_b12_ug, magnesium_mg, zinc_mg, others as found. ".

Definition payload (image_b64 label_type : text) : json :=
  JObject
    [(lit "contents",
      JArray
        [JObject
           [(lit "parts",
             JArray
               [JObject
                  [(lit "text",
                    JString (SYSTEM_INSTRUCTIONS ++ lit " Label type: "
                             ++ label_type ++ lit ". Output pure JSON."))];
                JObject
                  [(lit "inlineData",
                    JObject
                      [(lit "mimeType", JString (lit "image/jpeg"));
                       (lit "data", JString image_b64)])]])]])].

(** Lines 100-104: [data["candidates"][0]["content"]["parts"][0]["text"]] *)
Definition envelope_text (data : json) : outcome json :=
  a <-- getitem_key data (lit "candidates") ;;;
  b <-- getitem_0 a ;;;
  c <-- getitem_key b (lit "content") ;;;
  d <-- getitem_key c (lit "parts") ;;;
  e <-- getitem_0 d ;;;
  getitem_key e (lit "text").

Definition fence : text := Eval cbv in lit "```".
Definition backtick : text := Eval cbv in lit "`".
Definition json_tag : text := Eval cbv in lit "json".

(** Lines 107-114: the text that is handed to the parser. *)
Definition clean_text (t : text) : text :=
  let text_stripped := strip t in
  let text_stripped :=
    if startswith text_stripped fence then
      let text_stripped := strip_chars backtick text_stripped in
      if startswith (lower text_stripped) json_tag
      then slice_from text_stripped 4
      else text_stripped
    else text_stripped in
  strip text_stripped.

(** Lines 116-130: the direct parse, then the parse between the first
    opening brace and the last closing brace. *)
Definition parse_cleaned (text_stripped : text) : outcome json :=
  match json_loads text_stripped with
  | Some parsed => Return parsed
  | None =>
      let start := find 123 text_stripped in
      let end_ := rfind 125 text_stripped in
      if (negb (start =? -1) && negb (end_ =? -1) && (end_ >? start))%Z then
        match json_loads (slice text_stripped start (end_ + 1)) with
        | Some parsed => Return parsed
        | None =>
            Raise (HTTPException 500
                     (lit "Failed to parse JSON from Gemini output"))
        end
      else Raise (HTTPException 500 (lit "No JSON found in Gemini output"))
  end.

(** Lines 107-130 on the value found in the envelope: only a [str] has
    [strip]. *)
Definition extract_json (t : json) : outcome json :=
  match t with
  | JString s => parse_cleaned (clean_text s)
  | _ => Raise AttributeError
  end.

(** [resp.json()] *)
Definition resp_json (body : text) : outcome json :=
  match json_loads body with
  | Some v => Return v
  | None => Raise ResponseJSONDecodeError
  end.

Definition GEMINI_API_KEY : text := lit "GEMINI_API_KEY".

(** Lines 73-93: the request that is posted. *)
Definition gemini_request (api_key image_b64 label_type : text) : Request :=
  mkRequest GEMINI_ENDPOINT api_key (lit "application/json")
            (payload image_b64 label_type) 30.

Definition call_gemini (image_b64 label_type : text) : M json :=
  v <- os_getenv GEMINI_API_KEY ;;
  let api_key := match v with Some (c :: k) => c :: k | _ => [] end in
  match api_key with
  | [] => raise (HTTPException 500 (lit "GEMINI_API_KEY not set on server"))
  | _ :: _ =>
      resp <- requests_post (gemini_request api_key image_b64 label_type) ;;
      match resp with
      | RequestException e =>
          raise (HTTPException 502 (lit "Gemini request failed: " ++ e))
      | Response status_code resp_text =>
          if negb (status_code =? 200)%Z then
            raise (HTTPException status_code
                     (lit "Gemini error: " ++ slice_to resp_text 500))
          else
            data <- lift (resp_json resp_text) ;;
            match envelope_text data with
            | Raise _ =>
                raise (HTTPException 500
                         (lit "Unexpected Gemini response format"))
            | Return t => lift (extract_json t)
            end
      end
  end.

(* ===================================================================== *)
(** ** [parse_label] *)
(* ===================================================================== *)

Record ParseLabelRequest := mkParseLabelRequest {
  image_base64 : text;
  label_type : option text
}.

(** Lines 138-152: the dict the handler returns. *)
Definition normalize (parsed : json) : outcome json :=
  name <-- py_get parsed (lit "name") ;;;
  serving_size_g <-- py_get parsed (lit "serving_size_g") ;;;
  p <-- py_get parsed (lit "per_100g") ;;;
  let per_100g := py_or p (JObject []) in
  per_serving <-- py_get parsed (lit "per_serving") ;;;
  notes <-- py_get parsed (lit "notes") ;;;
  Return (JObject
            [(lit "name", name);
             (lit "serving_size_g", serving_size_g);
             (lit "per_100g", per_100g);
             (lit "per_serving", per_serving);
             (lit "notes", notes);
             (lit "raw", parsed)]).

(** [req.label_type or "nutrition"] *)
Definition label_type_arg (req : ParseLabelRequest) : text :=
  match label_type req with
  | Some (c :: t) => c :: t
  | _ => lit "nutrition"
  end.

Definition parse_label (req : ParseLabelRequest) : M json :=
  parsed <- call_gemini (image_base64 req) (label_type_arg req) ;;
  lift (normalize parsed).

(** *** The declared response model

    Line 133 declares the route with [response_model=ParseLabelResponse]
    (lines 30-36): the dict returned by the handler is validated field by
    field, a failure raises [ResponseValidationError], and the response is
    built from the validated fields. As pydantic 2 validates, a field of
    type [Dict[str, Any]] takes a mapping and [Optional[...]] also takes
    [None]; the keys of a JSON object are strings. How the scalar fields
    ([Optional[str]], [Optional[float]]) coerce their input is left open:
    their validators are parameters. The rendering of the response as
    JSON text is outside the model. *)
Section ResponseModel.

(** [name], [notes]: [Optional[str]] *)
Variable optional_str : json -> option json.

(** [serving_size_g]: [Optional[float]] *)
Variable optional_float : json -> option json.

(** [per_100g]: [Dict[str, Any]] *)
Definition dict_str_any (v : json) : option json :=
  match v with
  | JObject d => Some (JObject d)
  | _ => None
  end.

(** [per_serving], [raw]: [Optional[Dict[str, Any]]] *)
Definition optional_dict_str_any (v : json) : option json :=
  match v with
  | JNull => Some JNull
  | _ => dict_str_any v
  end.

(** The value given for a field, or the default of the model. *)
Definition field (resp : pydict) (k : text) (default : json) : json :=
  match dict_lookup resp k with Some v => v | None => default end.

Definition validate_response (resp : json) : outcome json :=
  match resp with
  | JObject r =>
      match optional_str (field r (lit "name") JNull),
            optional_float (field r (lit "serving_size_g") JNull),
            dict_str_any (field r (lit "per_100g") (JObject [])),
            optional_dict_str_any (field r (lit "per_serving") JNull),
            optional_str (field r (lit "notes") JNull),
            optional_dict_str_any (field r (lit "raw") JNull) with
      | Some name, Some serving, Some per_100g, Some per_serving,
        Some notes, Some raw =>
          Return (JObject
                    [(lit "name", name);
                     (lit "serving_size_g", serving);
                     (lit "per_100g", per_100g);
                     (lit "per_serving", per_serving);
                     (lit "notes", notes);
                     (lit "raw", raw)])
      | _, _, _, _, _, _ => Raise ResponseValidationError
      end
  | _ => Raise ResponseValidationError
  end.

(** [POST /api/parse-label]: the handler, then the response model. *)
Definition parse_label_route (req : ParseLabelRequest) : M json :=
  resp <- parse_label req ;;
  lift (validate_response resp).

End ResponseModel.

(* ===================================================================== *)
(** ** The vocabulary of the specification *)
(* ===================================================================== *)

(** The error kinds of the specification, as the exceptions the code
    raises for them. *)
Definition ConfigurationError : exn :=
  HTTPException 500 (lit "GEMINI_API_KEY not set on server").

Definition UpstreamUnavailableError (msg : text) : exn :=
  HTTPException 502 (lit "Gemini request failed: " ++ msg).

Definition UpstreamError (status_code : Z) (resp_text : text) : exn :=
  HTTPException status_code (lit "Gemini error: " ++ slice_to resp_text 500).

Definition MalformedUpstreamResponseError : exn :=
  HTTPException 500 (lit "Unexpected Gemini response format").

Definition JsonExtractionError (e : exn) : Prop :=
  e = HTTPException 500 (lit "Failed to parse JSON from Gemini output")
  \/ e = HTTPException 500 (lit "No JSON found in Gemini output").

(** The structural path [candidates[0].content.parts[0].text] of the
    specification: the envelope is an object whose [candidates] is an array
    with a first element, an object whose [content] is an object whose
    [parts] is an array with a first element, an object with a [text]. *)
Definition structural_path (data : json) : option json :=
  match data with
  | JObject d =>
      match dict_lookup d (lit "candidates") with
      | Some (JArray (JObject d1 :: _)) =>
          match dict_lookup d1 (lit "content") with
          | Some (JObject d2) =>
              match dict_lookup d2 (lit "parts") with
              | Some (JArray (JObject d3 :: _)) => dict_lookup d3 (lit "text")
              | _ => None
              end
          | _ => None
          end
      | _ => None
      end
  | _ => None
  end.

(** [sub] occurs in [s]. *)
Definition contains (sub s : text) : Prop :=
  exists pre post, s = pre ++ sub ++ post.

(** The remote end is reached with a key and answers 200 with an envelope
    that holds [t] at the structural path. *)
Definition upstream_answers (w : World) (req : ParseLabelRequest) (t : json)
    : Prop :=
  exists c k body data,
    environ w GEMINI_API_KEY = Some (c :: k)
    /\ remote w (gemini_request (c :: k) (image_base64 req)
                                (label_type_arg req))
       = Response 200 body
    /\ json_loads body = Some data
    /\ envelope_text data = Return t.

(** *** Worlds and requests for the examples *)

(** A world with the given value of [GEMINI_API_KEY] whose remote end
    always gives the same answer. *)
Definition world_with (key : option text) (answer : post_result) : World :=
  mkWorld (fun k => if text_eqb k GEMINI_API_KEY then key else None)
          (fun _ => answer).

(** The envelope of the remote end around a model answer that needs no
    escaping other than that of its double quotes, written with
    backslashes in the argument. *)
Definition envelope_around (escaped : text) : text :=
  lit "{'candidates':[{'content':{'parts':[{'text':'" ++ escaped
  ++ lit "'}]}}]}".

Definition example_request : ParseLabelRequest :=
  mkParseLabelRequest (lit "aGVsbG8=") None.

(** Validators of the scalar fields that accept only the declared types. *)
Definition strict_str (v : json) : option json :=
  match v with
  | JNull | JString _ => Some v
  | _ => None
  end.

Definition strict_float (v : json) : option json :=
  match v with
  | JNull | JInt _ | JFloat _ => Some v
  | _ => None
  end.

(** The first opening brace comes before the last closing brace. *)
Definition brace_pair (s : text) : bool :=
  (negb (find 123 s =? -1) && negb (rfind 125 s =? -1)
   && (rfind 125 s >? find 123 s))%Z.

(** The text between the first opening and the last closing brace. *)
Definition brace_slice (s : text) : text :=
  slice s (find 123 s) (rfind 125 s + 1).

(* ===================================================================== *)
(** ** Predicates of the proofs *)
(* ===================================================================== *)

(** The first character of a JSON value. *)
Definition value_start (c : N) : bool :=
  (c =? 34) || (c =? 123) || (c =? 91) || (c =? 110) || (c =? 116)
  || (c =? 102) || (c =? 78) || (c =? 73) || (c =? 45) || is_digit c.

(** The last character of a JSON value. *)
Definition value_end (c : N) : bool :=
  (c =? 34) || (c =? 125) || (c =? 93) || (c =? 108) || (c =? 101)
  || (c =? 78) || (c =? 121) || is_digit c.

(** A tail at which a run of digits stops. *)
Definition digit_stop (t : text) : bool :=
  match t with
  | [] => true
  | c :: _ => negb (is_digit c)
  end.

(** A tail that does not continue a number: it is empty, or starts with
    something else than a digit, a dot or an exponent mark. *)
Definition value_stop (t : text) : bool :=
  match t with
  | [] => true
  | c :: _ =>
      negb (is_digit c) && negb (c =? 46) && negb (c =? 101)
      && negb (c =? 69)
  end.

(** A body with its first and its last character. *)
Definition bounded (body : text) (c0 c1 : N) : Prop :=
  (exists tl, body = c0 :: tl) /\ (exists ini, body = ini ++ [c1]).

(** What a scanner of one value guarantees when it succeeds: the input is
    a body followed by the rest, the body begins and ends as a value does,
    an object begins and ends with its braces and nothing else begins with
    an opening brace, and the same body gives the same value in front of
    any tail that does not continue a number. *)
Definition value_local (p : text -> res json) : Prop :=
  forall s v rest,
    p s = Ok v rest ->
    exists body c0 c1,
      s = body ++ rest /\ bounded body c0 c1
      /\ value_start c0 = true /\ value_end c1 = true
      /\ (is_object v = true -> c0 = 123 /\ c1 = 125)
      /\ (c0 = 123 -> is_object v = true)
      /\ forall t, value_stop t = true -> p (body ++ t) = Ok v t.

(** What a loop over the elements guarantees when it succeeds: it stops
    behind the closing bracket [close], and what it returns depends on
    nothing behind that bracket. *)
Definition loop_local (close : N) (obj : bool) (p : text -> res json)
    : Prop :=
  forall s v rest,
    p s = Ok v rest ->
    exists body,
      s = body ++ close :: rest
      /\ is_object v = obj
      /\ forall t, p (body ++ close :: t) = Ok v t.

(** The input behind a high surrogate escape does not continue it with a
    low surrogate escape. *)
Definition lone_surrogate (l : text) : Prop :=
  match l with
  | bs :: uu :: a2 :: b2 :: c2 :: d2 :: _ =>
      (bs =? 92) && (uu =? 117) = false
      \/ exists u2, hex4 a2 b2 c2 d2 = Some u2 /\ is_low_surrogate u2 = false
  | _ => True
  end.

(** More fuel changes no result that was reached. *)
Definition res_le (r r' : res json) : Prop := r = NoFuel \/ r = r'.

Definition fn_le (p q : text -> res json) : Prop :=
  forall s, res_le (p s) (q s).

(** [body] is the text of the value [v], without margins. *)
Definition value_text (body : text) (v : json) : Prop :=
  exists n c0 c1,
    bounded body c0 c1
    /\ value_start c0 = true /\ value_end c1 = true
    /\ (is_object v = true -> c0 = 123 /\ c1 = 125)
    /\ (c0 = 123 -> is_object v = true)
    /\ forall t, value_stop t = true -> scan_once n (body ++ t) = Ok v t.

Definition is_backtick (c : N) : bool := existsb (N.eqb c) backtick.

(* ===================================================================== *)
(** ** Character classes *)
(* ===================================================================== *)

#[local] Arguments N.eqb : simpl never.
#[local] Arguments N.leb : simpl never.
#[local] Arguments N.ltb : simpl never.
Arguments is_digit : simpl never.
Arguments is_json_ws : simpl never.
Arguments py_isspace : simpl never.
Arguments value_start : simpl never.
Arguments value_end : simpl never.

Ltac bool_to_prop :=
  repeat (rewrite ?orb_true_iff, ?andb_true_iff, ?orb_false_iff,
            ?andb_false_iff, ?negb_true_iff, ?negb_false_iff,
            ?N.eqb_eq, ?N.eqb_neq, ?N.leb_le, ?N.leb_gt,
            ?N.ltb_lt, ?N.ltb_ge in * ).

Ltac char_classes :=
  unfold value_start, value_end, py_isspace, is_json_ws, is_digit,
    lower_cp in *;
  bool_to_prop; try lia.

Lemma json_ws_isspace c : is_json_ws c = true -> py_isspace c = true.
Proof. char_classes. Qed.

Lemma value_start_not_space c :
  value_start c = true -> py_isspace c = false.
Proof. char_classes. Qed.

Lemma value_start_not_ws c :
  value_start c = true -> is_json_ws c = false.
Proof. char_classes. Qed.

Lemma value_end_not_space c : value_end c = true -> py_isspace c = false.
Proof. char_classes. Qed.

Lemma value_end_not_ws c : value_end c = true -> is_json_ws c = false.
Proof. char_classes. Qed.

Lemma value_start_not_backtick c : value_start c = true -> c <> 96.
Proof. char_classes. Qed.

Lemma value_end_not_backtick c : value_end c = true -> c <> 96.
Proof. char_classes. Qed.

Lemma value_start_not_bom c : value_start c = true -> c <> 65279.
Proof. char_classes. Qed.

Lemma value_stop_digit_stop t : value_stop t = true -> digit_stop t = true.
Proof.
  destruct t as [|c t]; simpl; [reflexivity|].
  intros H. bool_to_prop. tauto.
Qed.

Lemma ws_value_stop c t : is_json_ws c = true -> value_stop (c :: t) = true.
Proof. simpl. char_classes. Qed.

(* ===================================================================== *)
(** ** Stripping *)
(* ===================================================================== *)

Section Strip.

Variable p : N -> bool.

Lemma drop_while_all w s :
  forallb p w = true -> drop_while p (w ++ s) = drop_while p s.
Proof.
  induction w as [|c w IH]; simpl; [reflexivity|].
  intros H. apply andb_true_iff in H. destruct H as [Hc Hw].
  rewrite Hc. auto.
Qed.

Lemma drop_while_split s :
  exists w, s = w ++ drop_while p s /\ forallb p w = true.
Proof.
  induction s as [|c s IH]; simpl.
  - exists []. auto.
  - destruct (p c) eqn:Hc.
    + destruct IH as [w [E F]]. exists (c :: w). simpl.
      rewrite Hc, F. split; [f_equal; exact E | reflexivity].
    + exists []. auto.
Qed.

Lemma forallb_rev w : forallb p w = true -> forallb p (rev w) = true.
Proof.
  intros H. apply forallb_forall. intros x Hx.
  apply in_rev in Hx. revert x Hx. apply forallb_forall. exact H.
Qed.

(** Stripping removes exactly the two margins when the core begins and
    ends with a character that stays. *)
Lemma strip_with_core w1 w2 body c0 c1 tl ini :
  forallb p w1 = true -> forallb p w2 = true ->
  body = c0 :: tl -> body = ini ++ [c1] ->
  p c0 = false -> p c1 = false ->
  strip_with p (w1 ++ body ++ w2) = body.
Proof.
  intros H1 H2 E0 E1 P0 P1.
  unfold strip_with, lstrip_with, rstrip_with.
  rewrite drop_while_all by exact H1.
  assert (L : drop_while p (body ++ w2) = body ++ w2).
  { rewrite E0. simpl. rewrite P0. reflexivity. }
  rewrite L, rev_app_distr, drop_while_all by (apply forallb_rev; exact H2).
  rewrite E1 at 1. rewrite rev_app_distr. simpl. rewrite P1.
  change (c1 :: rev ini) with ([c1] ++ rev ini).
  rewrite rev_app_distr, rev_involutive. simpl. symmetry. exact E1.
Qed.

End Strip.

Lemma strip_core w1 w2 body c0 c1 tl ini :
  forallb py_isspace w1 = true -> forallb py_isspace w2 = true ->
  body = c0 :: tl -> body = ini ++ [c1] ->
  py_isspace c0 = false -> py_isspace c1 = false ->
  strip (w1 ++ body ++ w2) = body.
Proof. apply strip_with_core. Qed.

Lemma strip_fixed body c0 c1 tl ini :
  body = c0 :: tl -> body = ini ++ [c1] ->
  py_isspace c0 = false -> py_isspace c1 = false ->
  strip body = body.
Proof.
  intros E0 E1 P0 P1.
  pose proof (strip_core [] [] body c0 c1 tl ini eq_refl eq_refl E0 E1 P0 P1)
    as H.
  simpl in H. rewrite app_nil_r in H. exact H.
Qed.

Lemma forallb_ws_space w :
  forallb is_json_ws w = true -> forallb py_isspace w = true.
Proof.
  intros H. apply forallb_forall. intros x Hx.
  apply json_ws_isspace. revert x Hx. apply forallb_forall. exact H.
Qed.

Lemma skip_ws_all w s :
  forallb is_json_ws w = true -> skip_ws (w ++ s) = skip_ws s.
Proof. apply drop_while_all. Qed.

Lemma skip_ws_split s :
  exists w, s = w ++ skip_ws s /\ forallb is_json_ws w = true.
Proof. apply drop_while_split. Qed.

Lemma skip_ws_stop c s : is_json_ws c = false -> skip_ws (c :: s) = c :: s.
Proof. intros H. unfold skip_ws. simpl. rewrite H. reflexivity. Qed.

Lemma skip_ws_head c r s : skip_ws s = c :: r -> is_json_ws c = false.
Proof.
  unfold skip_ws. induction s as [|x s IH]; simpl; [discriminate|].
  destruct (is_json_ws x) eqn:Hx; [exact IH|].
  intros E. injection E as -> _. exact Hx.
Qed.

(* ===================================================================== *)
(** ** The number matcher reads no further than the number *)
(* ===================================================================== *)

Lemma span_digits_split s ds r :
  span_digits s = (ds, r) -> s = ds ++ r /\ forallb is_digit ds = true.
Proof.
  revert ds r. induction s as [|c s IH]; simpl; intros ds r H.
  - injection H as <- <-. auto.
  - destruct (is_digit c) eqn:Hc.
    + destruct (span_digits s) as [ds' r'] eqn:E.
      injection H as <- <-. destruct (IH _ _ eq_refl) as [-> F].
      simpl. rewrite Hc, F. auto.
    + injection H as <- <-. auto.
Qed.

Lemma span_digits_app ds t :
  forallb is_digit ds = true -> digit_stop t = true ->
  span_digits (ds ++ t) = (ds, t).
Proof.
  intros F S. induction ds as [|c ds IH]; simpl.
  - destruct t as [|c t]; [reflexivity|]. simpl in S.
    apply negb_true_iff in S. simpl. rewrite S. reflexivity.
  - simpl in F. apply andb_true_iff in F. destruct F as [Hc F].
    rewrite Hc, (IH F). reflexivity.
Qed.

Lemma match_frac_local s fds r :
  match_frac s = (fds, r) ->
  exists fb,
    s = fb ++ r
    /\ forallb is_digit fds = true
    /\ ((fb = [] /\ fds = []) \/ (exists x ds, fb = 46 :: x :: ds /\ fds = x :: ds))
    /\ forall t, digit_stop t = true -> match_frac t = ([], t) ->
                 match_frac (fb ++ t) = (fds, t).
Proof.
  unfold match_frac at 1.
  destruct s as [|d [|x s]];
    try (intros H; injection H as <- <-; exists []; simpl; auto 6).
  destruct ((d =? 46) && is_digit x) eqn:C.
  - destruct (span_digits s) as [ds r'] eqn:E. intros H.
    injection H as <- <-.
    apply span_digits_split in E. destruct E as [-> F].
    apply andb_true_iff in C. destruct C as [Hd Hx].
    apply N.eqb_eq in Hd. subst d.
    exists (46 :: x :: ds). simpl. rewrite Hx, F.
    repeat split; eauto.
    intros t S _. rewrite span_digits_app by assumption. reflexivity.
  - intros H; injection H as <- <-; exists []; simpl; auto 6.
Qed.

Lemma digits_last x ds :
  forallb is_digit (x :: ds) = true ->
  exists ini c, x :: ds = ini ++ [c] /\ is_digit c = true.
Proof.
  intros F.
  destruct (exists_last (l := x :: ds)) as [ini [c E]]; [discriminate|].
  exists ini, c. split; [exact E|].
  rewrite E, forallb_app in F. apply andb_true_iff in F.
  destruct F as [_ F]. simpl in F. rewrite andb_true_r in F. exact F.
Qed.

Lemma match_exp_local s ex r :
  match_exp s = (ex, r) ->
  exists eb,
    s = eb ++ r
    /\ ((eb = [] /\ ex = None)
        \/ (exists e ini c,
              eb = e :: ini ++ [c] /\ is_digit c = true
              /\ is_digit e = false /\ (e =? 46) = false
              /\ ex <> None))
    /\ forall t, digit_stop t = true -> match_exp t = (None, t) ->
                 match_exp (eb ++ t) = (ex, t).
Proof.
  assert (Triv : forall s, (None, s) = (ex, r) ->
    exists eb, s = eb ++ r
    /\ ((eb = [] /\ ex = None)
        \/ (exists e ini c,
              eb = e :: ini ++ [c] /\ is_digit c = true
              /\ is_digit e = false /\ (e =? 46) = false
              /\ ex <> None))
    /\ forall t, digit_stop t = true -> match_exp t = (None, t) ->
                 match_exp (eb ++ t) = (ex, t)).
  { intros s0 H. injection H as <- <-. exists []. simpl. auto. }
  assert (Core : forall e pre x ds r' (eneg : bool),
    ((e =? 101) || (e =? 69)) = true ->
    forallb is_digit (x :: ds) = true ->
    (Some (eneg, x :: ds), r') = (ex, r) ->
    (forall t, digit_stop t = true ->
               match_exp ((e :: pre ++ x :: ds) ++ t)
               = (Some (eneg, x :: ds), t)) ->
    exists eb, (e :: pre ++ x :: ds) ++ r' = eb ++ r
    /\ ((eb = [] /\ ex = None)
        \/ (exists e ini c,
              eb = e :: ini ++ [c] /\ is_digit c = true
              /\ is_digit e = false /\ (e =? 46) = false
              /\ ex <> None))
    /\ forall t, digit_stop t = true -> match_exp t = (None, t) ->
                 match_exp (eb ++ t) = (ex, t)).
  { intros e pre x ds r' eneg He F H L. injection H as <- <-.
    destruct (digits_last _ _ F) as [ini [c [El Hc]]].
    exists (e :: pre ++ x :: ds). split; [reflexivity|]. split.
    - right. exists e, (pre ++ ini), c. rewrite El, <- app_assoc.
      repeat split; try assumption; try discriminate;
        clear - He; char_classes.
    - intros t S _. apply L. exact S. }
  unfold match_exp at 1.
  destruct s as [|e t]; [apply Triv|].
  destruct ((e =? 101) || (e =? 69)) eqn:He; [|apply Triv].
  destruct t as [|sg t1]; [apply Triv|].
  destruct (sg =? 45) eqn:S1; [|destruct (sg =? 43) eqn:S2].
  - destruct (span_digits t1) as [ds r'] eqn:E.
    destruct ds as [|x ds]; [apply Triv|].
    apply span_digits_split in E. destruct E as [-> F]. intros H.
    apply (Core e [sg] x ds r' true He F H).
    intros t S. unfold match_exp. simpl. rewrite He, S1.
    change (x :: ds ++ t) with ((x :: ds) ++ t).
    rewrite span_digits_app by assumption. reflexivity.
  - destruct (span_digits t1) as [ds r'] eqn:E.
    destruct ds as [|x ds]; [apply Triv|].
    apply span_digits_split in E. destruct E as [-> F]. intros H.
    apply (Core e [sg] x ds r' false He F H).
    intros t S. unfold match_exp. simpl. rewrite He, S1, S2.
    change (x :: ds ++ t) with ((x :: ds) ++ t).
    rewrite span_digits_app by assumption. reflexivity.
  - destruct (span_digits (sg :: t1)) as [ds r'] eqn:E.
    destruct ds as [|x ds]; [apply Triv|].
    apply span_digits_split in E. destruct E as [E F].
    simpl in E. injection E as -> ->. intros H.
    apply (Core e [] x ds r' false He F H).
    intros t S. unfold match_exp. simpl. rewrite He, S1, S2.
    change (x :: ds ++ t) with ((x :: ds) ++ t).
    rewrite span_digits_app by assumption. reflexivity.
Qed.

Lemma match_frac_no_dot d s :
  (d =? 46) = false -> match_frac (d :: s) = ([], d :: s).
Proof.
  intros H. unfold match_frac. destruct s; [reflexivity|].
  rewrite H. reflexivity.
Qed.

Lemma value_stop_frac t : value_stop t = true -> match_frac t = ([], t).
Proof.
  destruct t as [|d t]; [reflexivity|]. simpl. intros H.
  apply match_frac_no_dot. bool_to_prop. tauto.
Qed.

Lemma value_stop_exp t : value_stop t = true -> match_exp t = (None, t).
Proof.
  destruct t as [|e t]; [reflexivity|]. simpl. intros H.
  assert (E : (e =? 101) || (e =? 69) = false) by (bool_to_prop; tauto).
  rewrite E. reflexivity.
Qed.

Lemma bounded_single c : bounded [c] c c.
Proof. split; [exists [] | exists []]; reflexivity. Qed.

Lemma bounded_cons x body c0 c1 : bounded body c0 c1 -> bounded (x :: body) x c1.
Proof.
  intros [_ [ini E]]. split; [eexists; reflexivity|].
  exists (x :: ini). rewrite E. reflexivity.
Qed.

Lemma bounded_app pre body c0 c0' c1 :
  bounded body c0' c1 -> bounded (c0 :: pre ++ body) c0 c1.
Proof.
  intros [_ [ini E]]. split; [eexists; reflexivity|].
  exists (c0 :: pre ++ ini). rewrite E. simpl. rewrite <- app_assoc.
  reflexivity.
Qed.

Lemma bounded_snoc c0 pre c1 : bounded (c0 :: pre ++ [c1]) c0 c1.
Proof. split; [eexists; reflexivity | exists (c0 :: pre); reflexivity]. Qed.

Lemma bounded_nonempty body c0 c1 (rest : text) :
  bounded body c0 c1 -> (length rest < length (body ++ rest))%nat.
Proof.
  intros [[tl ->] _]. simpl. rewrite length_app. lia.
Qed.

Lemma match_int_local s ids r :
  match_int s = Some (ids, r) ->
  s = ids ++ r
  /\ (exists c tl, ids = c :: tl /\ is_digit c = true)
  /\ forallb is_digit ids = true
  /\ forall t, digit_stop t = true -> match_int (ids ++ t) = Some (ids, t).
Proof.
  unfold match_int at 1. destruct s as [|c s]; [discriminate|].
  destruct ((49 <=? c) && (c <=? 57)) eqn:C.
  - destruct (span_digits s) as [ds r'] eqn:E. intros H.
    injection H as <- <-. apply span_digits_split in E.
    destruct E as [-> F].
    assert (Hc : is_digit c = true) by (clear - C; char_classes).
    repeat split.
    + exists c, ds. auto.
    + simpl. rewrite Hc. exact F.
    + intros t S. simpl. rewrite C, span_digits_app by assumption.
      reflexivity.
  - destruct (c =? 48) eqn:Z; [|discriminate]. intros H.
    injection H as <- <-. apply N.eqb_eq in Z. subst c.
    repeat split; eauto.
Qed.

Lemma number_value_not_object neg ids fds ex :
  is_object (number_value neg ids fds ex) = false.
Proof. unfold number_value. destruct fds, ex; reflexivity. Qed.

Lemma match_unsigned_local neg s v rest :
  match_unsigned neg s = Some (v, rest) ->
  exists body c0 c1,
    s = body ++ rest /\ bounded body c0 c1
    /\ is_digit c0 = true /\ is_digit c1 = true
    /\ is_object v = false
    /\ forall t, value_stop t = true ->
                 match_unsigned neg (body ++ t) = Some (v, t).
Proof.
  unfold match_unsigned at 1.
  destruct (match_int s) as [[ids r1]|] eqn:EI; [|discriminate].
  destruct (match_frac r1) as [fds r2] eqn:EF.
  destruct (match_exp r2) as [ex r3] eqn:EE.
  intros H. injection H as <- <-.
  apply match_int_local in EI.
  destruct EI as [-> [[c0 [tl [Eids D0]]] [FI LI]]].
  apply match_frac_local in EF.
  destruct EF as [fb [-> [FF [SF LF]]]].
  apply match_exp_local in EE.
  destruct EE as [eb [-> [SE LE]]].
  assert (Last : exists c1, bounded (ids ++ fb ++ eb) c0 c1
                            /\ is_digit c1 = true).
  { destruct SE as [[-> _] | [e [ini [c [-> [Hc _]]]]]].
    - rewrite app_nil_r.
      destruct SF as [[-> _] | [x [ds [-> Efds]]]].
      + rewrite app_nil_r. rewrite Eids in FI.
        destruct (digits_last _ _ FI) as [ini [c [E Hc]]].
        exists c. split; [|exact Hc]. rewrite Eids.
        split; [eexists; reflexivity | exists ini; exact E].
      + rewrite Efds in FF.
        destruct (digits_last _ _ FF) as [ini [c [E Hc]]].
        exists c. split; [|exact Hc]. rewrite Eids, E. simpl.
        split; [eexists; reflexivity|].
        exists (c0 :: tl ++ 46 :: ini). simpl. rewrite <- app_assoc.
        reflexivity.
    - exists c. split; [|exact Hc]. rewrite Eids. simpl.
      split; [eexists; reflexivity|].
      exists (c0 :: tl ++ fb ++ e :: ini). simpl.
      rewrite <- !app_assoc. reflexivity. }
  destruct Last as [c1 [B D1]].
  exists (ids ++ fb ++ eb), c0, c1.
  rewrite <- !app_assoc.
  repeat split; try assumption; try apply B.
  - apply number_value_not_object.
  - intros t S. unfold match_unsigned. rewrite <- !app_assoc.
    assert (Se : digit_stop (eb ++ t) = true
                 /\ match_frac (eb ++ t) = ([], eb ++ t)).
    { destruct SE as [[-> _] | [e [ini [c [-> [_ [De [Dd _]]]]]]]].
      - simpl. split; [apply value_stop_digit_stop | apply value_stop_frac];
          exact S.
      - simpl. rewrite De. split; [reflexivity|].
        apply match_frac_no_dot. exact Dd. }
    destruct Se as [Se1 Se2].
    assert (Sf : digit_stop (fb ++ eb ++ t) = true).
    { destruct SF as [[-> _] | [x [ds [-> _]]]]; [exact Se1 | reflexivity]. }
    rewrite (LI _ Sf), (LF _ Se1 Se2).
    rewrite (LE t (value_stop_digit_stop _ S) (value_stop_exp _ S)).
    reflexivity.
Qed.

Lemma strip_prefix_split p s r : strip_prefix p s = Some r -> s = p ++ r.
Proof.
  revert s. induction p as [|x p IH]; simpl; intros s H.
  - injection H as ->. reflexivity.
  - destruct s as [|y s]; [discriminate|].
    destruct (x =? y) eqn:E; [|discriminate].
    apply N.eqb_eq in E. subst y. f_equal. apply IH. exact H.
Qed.

Lemma strip_prefix_app p t : strip_prefix p (p ++ t) = Some t.
Proof.
  induction p as [|x p IH]; simpl; [reflexivity|].
  rewrite N.eqb_refl. exact IH.
Qed.

Lemma scan_constant_digit c s : is_digit c = true -> scan_constant (c :: s) = None.
Proof.
  intros D. unfold scan_constant, kw_null, kw_true, kw_false, kw_nan, kw_inf,
    kw_neginf. simpl.
  repeat match goal with
         | |- context [?k =? c] =>
             let E := fresh "E" in
             destruct (k =? c) eqn:E;
             [apply N.eqb_eq in E; subst c; discriminate D|]
         end.
  reflexivity.
Qed.

Lemma scan_constant_minus_digit c s :
  is_digit c = true -> scan_constant (45 :: c :: s) = None.
Proof.
  intros D. unfold scan_constant, kw_null, kw_true, kw_false, kw_nan, kw_inf,
    kw_neginf. simpl.
  destruct (73 =? c) eqn:E; [|reflexivity].
  apply N.eqb_eq in E; subst c; discriminate D.
Qed.

Lemma digit_value_start c : is_digit c = true -> value_start c = true.
Proof. char_classes. Qed.

Lemma digit_value_end c : is_digit c = true -> value_end c = true.
Proof. char_classes. Qed.

Lemma match_number_local s v rest :
  match_number s = Some (v, rest) ->
  exists body c0 c1,
    s = body ++ rest /\ bounded body c0 c1
    /\ value_start c0 = true /\ value_end c1 = true
    /\ is_object v = false
    /\ (forall t, scan_constant (body ++ t) = None)
    /\ forall t, value_stop t = true ->
                 match_number (body ++ t) = Some (v, t).
Proof.
  unfold match_number at 1. destruct s as [|c s]; [discriminate|].
  destruct (c =? 45) eqn:C; intros H;
    apply match_unsigned_local in H;
    destruct H as [body [c0 [c1 [E [B [D0 [D1 [NO L]]]]]]]].
  - apply N.eqb_eq in C. subst c s.
    exists (45 :: body), 45, c1.
    split; [reflexivity|]. split; [exact (bounded_cons _ _ _ _ B)|].
    split; [reflexivity|]. split; [apply digit_value_end; exact D1|].
    split; [exact NO|]. split.
    + intros t. destruct B as [[tl ->] _]. simpl.
      apply scan_constant_minus_digit. exact D0.
    + intros t S. simpl. apply L. exact S.
  - exists body, c0, c1.
    split; [exact E|]. split; [exact B|].
    split; [apply digit_value_start; exact D0|].
    split; [apply digit_value_end; exact D1|].
    split; [exact NO|]. split.
    + intros t. destruct B as [[tl ->] _]. simpl.
      apply scan_constant_digit. exact D0.
    + intros t S. unfold match_number. destruct B as [[tl Eb] _].
      rewrite Eb in *. simpl in E. injection E as -> _. simpl.
      rewrite C. apply L. exact S.
Qed.

Lemma scan_constant_local s v rest :
  scan_constant s = Some (v, rest) ->
  exists body c0 c1,
    s = body ++ rest /\ bounded body c0 c1
    /\ value_start c0 = true /\ value_end c1 = true
    /\ is_object v = false
    /\ forall t, scan_constant (body ++ t) = Some (v, t).
Proof.
  unfold scan_constant at 1.
  repeat match goal with
         | |- match strip_prefix ?k s with _ => _ end = _ -> _ =>
             let E := fresh "E" in
             destruct (strip_prefix k s) eqn:E;
             [ intros H; injection H as <- <-;
               apply strip_prefix_split in E; exists k
             | ]
         end; try discriminate;
    match goal with
    | |- exists c0 c1, _ = ?k ++ _ /\ _ =>
        let h := eval cbv in (hd 0 k) in
        let l := eval cbv in (last k 0) in
        exists h, l
    end;
    (repeat split;
     [ assumption
     | eexists; reflexivity
     | match goal with
       | |- exists ini, ?k = _ =>
           let i := eval cbv in (removelast k) in exists i; reflexivity
       end ]).
Qed.

(* ===================================================================== *)
(** ** [scanstring] reads no further than the closing quote *)
(* ===================================================================== *)

Lemma hexval_quote c : hexval c <> None -> c <> 34.
Proof. intros H E. subst c. apply H. reflexivity. Qed.

Lemma hex4_quote a b c d u :
  hex4 a b c d = Some u -> a <> 34 /\ b <> 34 /\ c <> 34 /\ d <> 34.
Proof.
  unfold hex4.
  destruct (hexval a) eqn:A; [|discriminate].
  destruct (hexval b) eqn:B; [|discriminate].
  destruct (hexval c) eqn:C; [|discriminate].
  destruct (hexval d) eqn:D; [|discriminate].
  intros _. repeat split; apply hexval_quote; congruence.
Qed.

Lemma app_quote_cons (body : text) t x l :
  body ++ 34 :: t = x :: l -> x <> 34 ->
  exists b, body = x :: b /\ b ++ 34 :: t = l.
Proof.
  destruct body as [|y body]; simpl; intros E N; injection E as E1 E2.
  - congruence.
  - subst y. exists body. auto.
Qed.

Lemma scanstring_lone a b c1 d u body rest acc str :
  hex4 a b c1 d = Some u -> is_high_surrogate u = true ->
  (forall t, scanstring (body ++ 34 :: t) (acc ++ [u]) = Some (str, t)) ->
  lone_surrogate (body ++ 34 :: rest) ->
  forall t,
    scanstring (92 :: 117 :: a :: b :: c1 :: d :: body ++ 34 :: t) acc
    = Some (str, t).
Proof.
  intros HX HS A Old t. simpl. rewrite HX, HS.
  pose proof (A t) as At.
  remember (body ++ 34 :: t) as l eqn:El.
  destruct l as [|bs [|uu [|a2 [|b2 [|c2 [|d2 t4]]]]]]; try exact At.
  destruct ((bs =? 92) && (uu =? 117)) eqn:C; [|exact At].
  apply andb_true_iff in C. destruct C as [Cb Cu].
  apply N.eqb_eq in Cb. apply N.eqb_eq in Cu. subst bs uu.
  destruct (hex4 a2 b2 c2 d2) as [u2|] eqn:HX2.
  - destruct (is_low_surrogate u2) eqn:LS; [|exact At].
    exfalso. destruct (hex4_quote _ _ _ _ _ HX2) as [Na [Nb [Nc Nd]]].
    symmetry in El.
    apply app_quote_cons in El; [|discriminate]. destruct El as [b1 [-> El]].
    apply app_quote_cons in El; [|discriminate]. destruct El as [b2' [-> El]].
    apply app_quote_cons in El; [|exact Na]. destruct El as [b3 [-> El]].
    apply app_quote_cons in El; [|exact Nb]. destruct El as [b4 [-> El]].
    apply app_quote_cons in El; [|exact Nc]. destruct El as [b5 [-> El]].
    apply app_quote_cons in El; [|exact Nd]. destruct El as [b6 [-> El]].
    simpl in Old.
    destruct Old as [Old | [u2' [E2 L2]]]; [discriminate|]. congruence.
  - exfalso. simpl in At. rewrite HX2 in At. discriminate.
Qed.

Lemma scanstring_local n :
  forall s acc str rest,
    (length s <= n)%nat ->
    scanstring s acc = Some (str, rest) ->
    exists body,
      s = body ++ 34 :: rest
      /\ forall t, scanstring (body ++ 34 :: t) acc = Some (str, t).
Proof.
  induction n as [|n IH]; intros s acc str rest Len H;
    destruct s as [|c t]; try discriminate; simpl in Len; [lia|].
  simpl in H.
  destruct (c =? 34) eqn:Q.
  { injection H as <- <-. apply N.eqb_eq in Q. subst c. exists []. simpl.
    split; reflexivity. }
  destruct (c =? 92) eqn:B.
  2:{ destruct (c <? 32) eqn:Ctl; [discriminate|].
      apply IH in H; [|lia]. destruct H as [body [-> L]].
      exists (c :: body). split; [reflexivity|]. intros t0. simpl.
      rewrite Q, B, Ctl. apply L. }
  apply N.eqb_eq in B. subst c.
  destruct t as [|e t1]; [discriminate|].
  destruct (e =? 117) eqn:U.
  2:{ destruct (unescape e) as [x|] eqn:Ue; [|discriminate].
      apply IH in H; [|simpl in Len; lia]. destruct H as [body [-> L]].
      exists (92 :: e :: body). split; [reflexivity|]. intros t0. simpl.
      rewrite U, Ue. apply L. }
  apply N.eqb_eq in U. subst e.
  destruct t1 as [|a [|b [|c1 [|d t2]]]]; try discriminate.
  destruct (hex4 a b c1 d) as [u|] eqn:HX; [|discriminate].
  simpl in Len.
  destruct (is_high_surrogate u) eqn:HS.
  2:{ apply IH in H; [|lia]. destruct H as [body [-> L]].
      exists (92 :: 117 :: a :: b :: c1 :: d :: body).
      split; [reflexivity|]. intros t0. simpl.
      rewrite HX, HS. apply L. }
  assert (Lone : scanstring t2 (acc ++ [u]) = Some (str, rest) ->
                 lone_surrogate t2 ->
                 exists body,
                   92 :: 117 :: a :: b :: c1 :: d :: t2 = body ++ 34 :: rest
                   /\ forall t, scanstring (body ++ 34 :: t) acc
                                = Some (str, t)).
  { intros H' Old. apply IH in H'; [|lia]. destruct H' as [body [E L]].
    exists (92 :: 117 :: a :: b :: c1 :: d :: body).
    split; [rewrite E; reflexivity|]. rewrite E in Old.
    apply (scanstring_lone _ _ _ _ _ _ _ _ _ HX HS L Old). }
  destruct t2 as [|bs [|uu [|a2 [|b2 [|c2 [|d2 t4]]]]]];
    try (apply Lone; [exact H | exact I]).
  destruct ((bs =? 92) && (uu =? 117)) eqn:C.
  2:{ apply Lone; [exact H | left; exact C]. }
  destruct (hex4 a2 b2 c2 d2) as [u2|] eqn:HX2; [|discriminate].
  destruct (is_low_surrogate u2) eqn:LS.
  2:{ apply Lone; [exact H | right; exists u2; auto]. }
  apply IH in H; [|simpl in Len; lia]. destruct H as [body [-> L]].
  exists (92 :: 117 :: a :: b :: c1 :: d :: bs :: uu :: a2 :: b2 :: c2 :: d2
             :: body).
  split; [reflexivity|]. intros t0. simpl.
  rewrite HX, HS, C, HX2, LS. apply L.
Qed.

(* ===================================================================== *)
(** ** [scan_once] reads no further than the value *)
(* ===================================================================== *)

Lemma app_sep_cons (q : N) (body : text) t x l :
  body ++ q :: t = x :: l -> x <> q ->
  exists b, body = x :: b /\ b ++ q :: t = l.
Proof.
  destruct body as [|y body]; simpl; intros E N; injection E as E1 E2.
  - congruence.
  - subst y. exists body. auto.
Qed.

Lemma value_stop_after_ws w c t :
  forallb is_json_ws w = true -> value_stop (c :: t) = true ->
  value_stop (w ++ c :: t) = true.
Proof.
  destruct w as [|x w]; [auto|]. simpl. intros F _.
  apply andb_true_iff in F. destruct F as [F _]. clear - F. char_classes.
Qed.

Lemma skip_ws_to w c t :
  forallb is_json_ws w = true -> is_json_ws c = false ->
  skip_ws (w ++ c :: t) = c :: t.
Proof.
  intros F C. rewrite skip_ws_all by exact F. apply skip_ws_stop. exact C.
Qed.

Lemma skip_ws_fixed s b q rest :
  skip_ws s = b ++ q :: rest -> is_json_ws q = false ->
  forall t, skip_ws (b ++ q :: t) = b ++ q :: t.
Proof.
  intros E Q t. destruct b as [|x b]; simpl in *.
  - apply skip_ws_stop. exact Q.
  - apply skip_ws_stop. apply (skip_ws_head _ _ _ E).
Qed.

Section Locality.

Variable array object : text -> res json.
Hypothesis array_local : loop_local 93 false array.
Hypothesis object_local : loop_local 125 true object.

Lemma scan_value_local : value_local (scan_value array object).
Proof.
  intros s v rest H. unfold scan_value in H.
  destruct s as [|c t]; [discriminate|].
  destruct (c =? 34) eqn:Q.
  { destruct (scanstring t []) as [[str r]|] eqn:S; [|discriminate].
    injection H as <- <-. apply N.eqb_eq in Q. subst c.
    apply (scanstring_local (length t)) in S; [|lia].
    destruct S as [body [-> L]].
    exists (34 :: body ++ [34]), 34, 34.
    split; [simpl; rewrite <- app_assoc; reflexivity|].
    split; [apply bounded_snoc|].
    split; [reflexivity|]. split; [reflexivity|].
    split; [discriminate|]. split; [discriminate|].
    intros t0 _. simpl. rewrite <- app_assoc. simpl. rewrite L.
    reflexivity. }
  destruct (c =? 123) eqn:QO.
  { apply N.eqb_eq in QO. subst c.
    destruct (skip_ws_split t) as [w [Et Fw]].
    destruct (skip_ws t) as [|c' r] eqn:W; [discriminate|].
    pose proof (skip_ws_head _ _ _ W) as Hc'.
    destruct (c' =? 125) eqn:E.
    - injection H as <- <-. apply N.eqb_eq in E. subst c'.
      exists (123 :: w ++ [125]), 123, 125.
      split; [simpl; rewrite <- app_assoc, Et; reflexivity|].
      split; [apply bounded_snoc|].
      split; [reflexivity|]. split; [reflexivity|].
      split; [auto|]. split; [auto|].
      intros t0 _. simpl. rewrite <- app_assoc. simpl.
      rewrite skip_ws_to by assumption. reflexivity.
    - apply object_local in H. destruct H as [body [Eb [Ov L]]].
      symmetry in Eb. apply app_sep_cons in Eb;
        [|apply N.eqb_neq; exact E].
      destruct Eb as [b' [-> Er]]. subst r.
      exists (123 :: (w ++ c' :: b') ++ [125]), 123, 125.
      split; [rewrite Et; simpl; rewrite <- !app_assoc; reflexivity|].
      split; [apply bounded_snoc|].
      split; [reflexivity|]. split; [reflexivity|].
      split; [auto|]. split; [auto|].
      intros t0 _. simpl. rewrite <- !app_assoc. simpl.
      rewrite skip_ws_to by assumption. rewrite E. apply L. }
  destruct (c =? 91) eqn:QA.
  { apply N.eqb_eq in QA. subst c.
    destruct (skip_ws_split t) as [w [Et Fw]].
    destruct (skip_ws t) as [|c' r] eqn:W; [discriminate|].
    pose proof (skip_ws_head _ _ _ W) as Hc'.
    destruct (c' =? 93) eqn:E.
    - injection H as <- <-. apply N.eqb_eq in E. subst c'.
      exists (91 :: w ++ [93]), 91, 93.
      split; [simpl; rewrite <- app_assoc, Et; reflexivity|].
      split; [apply bounded_snoc|].
      split; [reflexivity|]. split; [reflexivity|].
      split; [discriminate|]. split; [discriminate|].
      intros t0 _. simpl. rewrite <- app_assoc. simpl.
      rewrite skip_ws_to by assumption. reflexivity.
    - apply array_local in H. destruct H as [body [Eb [Ov L]]].
      symmetry in Eb. apply app_sep_cons in Eb;
        [|apply N.eqb_neq; exact E].
      destruct Eb as [b' [-> Er]]. subst r.
      exists (91 :: (w ++ c' :: b') ++ [93]), 91, 93.
      split; [rewrite Et; simpl; rewrite <- !app_assoc; reflexivity|].
      split; [apply bounded_snoc|].
      split; [reflexivity|]. split; [reflexivity|].
      split; [rewrite Ov; discriminate|]. split; [discriminate|].
      intros t0 _. simpl. rewrite <- !app_assoc. simpl.
      rewrite skip_ws_to by assumption. rewrite E. apply L. }
  destruct (scan_constant (c :: t)) as [[v' r]|] eqn:K.
  { injection H as <- <-. apply scan_constant_local in K.
    destruct K as [body [c0 [c1 [Eb [B [V0 [V1 [NO L]]]]]]]].
    exists body, c0, c1. split; [exact Eb|]. split; [exact B|].
    split; [exact V0|]. split; [exact V1|].
    split; [rewrite NO; discriminate|].
    split; [intros E123; destruct B as [[tl Etl] _]; rewrite Etl in Eb;
            simpl in Eb; injection Eb as Ec _; subst c0 c;
            discriminate QO|].
    intros t0 _. destruct B as [[tl ->] _]. simpl in Eb.
    injection Eb as <- _. change ((c :: tl) ++ t0) with (c :: tl ++ t0).
    unfold scan_value. rewrite Q, QO, QA.
    change (c :: tl ++ t0) with ((c :: tl) ++ t0). rewrite L. reflexivity. }
  destruct (match_number (c :: t)) as [[v' r]|] eqn:M; [|discriminate].
  injection H as <- <-. apply match_number_local in M.
  destruct M as [body [c0 [c1 [Eb [B [V0 [V1 [NO [NK L]]]]]]]]].
  exists body, c0, c1. split; [exact Eb|]. split; [exact B|].
  split; [exact V0|]. split; [exact V1|].
  split; [rewrite NO; discriminate|].
  split; [intros E123; destruct B as [[tl Etl] _]; rewrite Etl in Eb;
          simpl in Eb; injection Eb as Ec _; subst c0 c;
          discriminate QO|].
  intros t0 S. destruct B as [[tl ->] _]. simpl in Eb.
  injection Eb as <- _. change ((c :: tl) ++ t0) with (c :: tl ++ t0).
  unfold scan_value. rewrite Q, QO, QA.
  change (c :: tl ++ t0) with ((c :: tl) ++ t0).
  rewrite NK, (L _ S). reflexivity.
Qed.

End Locality.

Ltac norm_app :=
  repeat first [rewrite <- !app_assoc | progress cbn [app]].

Section LoopLocality.

Variable scan : text -> res json.
Hypothesis scan_local : value_local scan.

Lemma array_step_local (loop : list json -> text -> res json) :
  (forall acc, loop_local 93 false (loop acc)) ->
  forall acc, loop_local 93 false (array_step scan loop acc).
Proof.
  intros LL acc s v rest H. unfold array_step in H.
  destruct (scan s) as [v1 r1| |] eqn:S; try discriminate.
  apply scan_local in S.
  destruct S as [b1 [c0 [c1 [-> [_ [_ [_ [_ [_ L1]]]]]]]]].
  destruct (skip_ws_split r1) as [w [Er Fw]].
  destruct (skip_ws r1) as [|c r'] eqn:W; [discriminate|].
  destruct (c =? 93) eqn:E.
  - injection H as <- <-. apply N.eqb_eq in E. subst c.
    exists (b1 ++ w). split; [rewrite Er; norm_app; reflexivity|].
    split; [reflexivity|]. intros t. unfold array_step. norm_app.
    rewrite L1 by (apply value_stop_after_ws; [exact Fw | reflexivity]).
    rewrite skip_ws_to by (exact Fw || reflexivity). reflexivity.
  - destruct (c =? 44) eqn:E'; [|discriminate].
    apply N.eqb_eq in E'. subst c.
    destruct (skip_ws_split r') as [w2 [Er' Fw2]].
    apply LL in H. destruct H as [b2 [Eb [Ov L2]]].
    exists (b1 ++ w ++ 44 :: w2 ++ b2).
    split; [rewrite Er, Er', Eb; norm_app; reflexivity|].
    split; [exact Ov|]. intros t. unfold array_step. norm_app.
    rewrite L1 by (apply value_stop_after_ws; [exact Fw | reflexivity]).
    rewrite skip_ws_to by (exact Fw || reflexivity). cbv iota.
    change (44 =? 93) with false. change (44 =? 44) with true. cbv iota.
    rewrite skip_ws_all by exact Fw2.
    rewrite (skip_ws_fixed _ _ _ _ Eb) by reflexivity. apply L2.
Qed.

Lemma object_step_local (loop : pydict -> text -> res json) :
  (forall d, loop_local 125 true (loop d)) ->
  forall d, loop_local 125 true (object_step scan loop d).
Proof.
  intros LL d s v rest H. unfold object_step in H.
  destruct s as [|q t]; [discriminate|].
  destruct (q =? 34) eqn:Q; [|discriminate].
  apply N.eqb_eq in Q. subst q.
  destruct (scanstring t []) as [[k r]|] eqn:S; [|discriminate].
  apply (scanstring_local (length t)) in S; [|lia].
  destruct S as [bk [-> Lk]].
  destruct (skip_ws_split r) as [w0 [Er Fw0]].
  destruct (skip_ws r) as [|c r1] eqn:W0; [discriminate|].
  destruct (c =? 58) eqn:C; [|discriminate].
  apply N.eqb_eq in C. subst c.
  destruct (skip_ws_split r1) as [w1 [Er1 Fw1]].
  destruct (scan (skip_ws r1)) as [v1 r2| |] eqn:S; try discriminate.
  pose proof S as S'. apply scan_local in S'.
  destruct S' as [b1 [c0 [c1 [Eb1 [[[tl E0] _] [V0 [_ [_ [_ L1]]]]]]]]].
  destruct (skip_ws_split r2) as [w2 [Er2 Fw2]].
  destruct (skip_ws r2) as [|c' r3] eqn:W2; [discriminate|].
  assert (Fix1 : forall t, skip_ws (w1 ++ b1 ++ t) = b1 ++ t).
  { intros t0. rewrite skip_ws_all by exact Fw1. rewrite E0. cbn [app].
    apply skip_ws_stop. apply value_start_not_ws. exact V0. }
  destruct (c' =? 125) eqn:E.
  - injection H as <- <-. apply N.eqb_eq in E. subst c'.
    exists (34 :: bk ++ 34 :: w0 ++ 58 :: w1 ++ b1 ++ w2).
    split; [rewrite Er, Er1, Eb1, Er2; norm_app; reflexivity|].
    split; [reflexivity|]. intros t0. unfold object_step. norm_app.
    change (34 =? 34) with true. cbv iota. rewrite Lk.
    rewrite skip_ws_to by (exact Fw0 || reflexivity). cbv iota.
    change (58 =? 58) with true. cbv iota.
    rewrite Fix1, L1
      by (apply value_stop_after_ws; [exact Fw2 | reflexivity]).
    rewrite skip_ws_to by (exact Fw2 || reflexivity). reflexivity.
  - destruct (c' =? 44) eqn:E'; [|discriminate].
    apply N.eqb_eq in E'. subst c'.
    destruct (skip_ws_split r3) as [w3 [Er3 Fw3]].
    apply LL in H. destruct H as [b2 [Eb2 [Ov L2]]].
    exists (34 :: bk ++ 34 :: w0 ++ 58 :: w1 ++ b1 ++ w2 ++ 44 :: w3 ++ b2).
    split; [rewrite Er, Er1, Eb1, Er2, Er3, Eb2; norm_app; reflexivity|].
    split; [exact Ov|]. intros t0. unfold object_step. norm_app.
    change (34 =? 34) with true. cbv iota. rewrite Lk.
    rewrite skip_ws_to by (exact Fw0 || reflexivity). cbv iota.
    change (58 =? 58) with true. cbv iota.
    rewrite Fix1, L1
      by (apply value_stop_after_ws; [exact Fw2 | reflexivity]).
    rewrite skip_ws_to by (exact Fw2 || reflexivity). cbv iota.
    change (44 =? 125) with false. change (44 =? 44) with true. cbv iota.
    rewrite skip_ws_all by exact Fw3.
    rewrite (skip_ws_fixed _ _ _ _ Eb2) by reflexivity. apply L2.
Qed.

End LoopLocality.

Theorem scan_once_local n :
  value_local (scan_once n)
  /\ (forall acc, loop_local 93 false (parse_array n acc))
  /\ (forall d, loop_local 125 true (parse_object n d)).
Proof.
  induction n as [|n [IHs [IHa IHo]]].
  - repeat split; intros; intros s v rest H; discriminate.
  - split; [|split].
    + apply (scan_value_local _ _ (IHa []) (IHo [])).
    + apply (array_step_local _ IHs _ IHa).
    + apply (object_step_local _ IHs _ IHo).
Qed.

(* ===================================================================== *)
(** ** Fuel *)
(* ===================================================================== *)

Lemma res_le_refl r : res_le r r.
Proof. right. reflexivity. Qed.

Lemma res_le_trans r1 r2 r3 : res_le r1 r2 -> res_le r2 r3 -> res_le r1 r3.
Proof.
  intros [H|H] [K|K]; subst; try (left; reflexivity); right; reflexivity.
Qed.

Lemma scan_value_mono a a' o o' :
  fn_le a a' -> fn_le o o' -> fn_le (scan_value a o) (scan_value a' o').
Proof.
  intros Ha Ho s. unfold scan_value.
  destruct s as [|c t]; [apply res_le_refl|].
  destruct (c =? 34); [apply res_le_refl|].
  destruct (c =? 123).
  { destruct (skip_ws t) as [|c' r]; [apply res_le_refl|].
    destruct (c' =? 125); [apply res_le_refl | apply Ho]. }
  destruct (c =? 91); [|apply res_le_refl].
  destruct (skip_ws t) as [|c' r]; [apply res_le_refl|].
  destruct (c' =? 93); [apply res_le_refl | apply Ha].
Qed.

Lemma array_step_mono scan scan' loop loop' :
  fn_le scan scan' -> (forall acc, fn_le (loop acc) (loop' acc)) ->
  forall acc, fn_le (array_step scan loop acc) (array_step scan' loop' acc).
Proof.
  intros Hs Hl acc s. unfold array_step.
  destruct (Hs s) as [E|E]; [rewrite E; left; reflexivity|].
  rewrite <- E. destruct (scan s) as [v r| |]; try apply res_le_refl.
  destruct (skip_ws r) as [|c r']; [apply res_le_refl|].
  destruct (c =? 93); [apply res_le_refl|].
  destruct (c =? 44); [apply Hl | apply res_le_refl].
Qed.

Lemma object_step_mono scan scan' loop loop' :
  fn_le scan scan' -> (forall d, fn_le (loop d) (loop' d)) ->
  forall d, fn_le (object_step scan loop d) (object_step scan' loop' d).
Proof.
  intros Hs Hl d s. unfold object_step.
  destruct s as [|q t]; [apply res_le_refl|].
  destruct (q =? 34); [|apply res_le_refl].
  destruct (scanstring t []) as [[k r]|]; [|apply res_le_refl].
  destruct (skip_ws r) as [|c r1]; [apply res_le_refl|].
  destruct (c =? 58); [|apply res_le_refl].
  destruct (Hs (skip_ws r1)) as [E|E]; [rewrite E; left; reflexivity|].
  rewrite <- E. destruct (scan (skip_ws r1)) as [v r2| |];
    try apply res_le_refl.
  destruct (skip_ws r2) as [|c' r3]; [apply res_le_refl|].
  destruct (c' =? 125); [apply res_le_refl|].
  destruct (c' =? 44); [apply Hl | apply res_le_refl].
Qed.

Lemma scan_once_mono_step n :
  fn_le (scan_once n) (scan_once (S n))
  /\ (forall acc, fn_le (parse_array n acc) (parse_array (S n) acc))
  /\ (forall d, fn_le (parse_object n d) (parse_object (S n) d)).
Proof.
  induction n as [|n [IHs [IHa IHo]]].
  - repeat split; intros; intros s; left; reflexivity.
  - split; [|split].
    + apply (scan_value_mono _ _ _ _ (IHa []) (IHo [])).
    + apply (array_step_mono _ _ _ _ IHs IHa).
    + apply (object_step_mono _ _ _ _ IHs IHo).
Qed.

Lemma scan_once_mono n m s :
  (n <= m)%nat -> res_le (scan_once n s) (scan_once m s).
Proof.
  induction 1 as [|m _ IH]; [apply res_le_refl|].
  apply (res_le_trans _ _ _ IH). apply scan_once_mono_step.
Qed.

Lemma skip_ws_length s : (length (skip_ws s) <= length s)%nat.
Proof.
  destruct (skip_ws_split s) as [w [E _]]. rewrite E at 2.
  rewrite length_app. lia.
Qed.

Lemma scan_value_total a o s :
  (forall s', (length s' < length s)%nat -> a s' <> NoFuel) ->
  (forall s', (length s' < length s)%nat -> o s' <> NoFuel) ->
  scan_value a o s <> NoFuel.
Proof.
  intros Ha Ho. unfold scan_value.
  destruct s as [|c t]; [discriminate|].
  destruct (c =? 34).
  { destruct (scanstring t []) as [[str r]|]; discriminate. }
  assert (Sub : forall c' r, skip_ws t = c' :: r ->
                             (length (c' :: r) < length (c :: t))%nat).
  { intros c' r E. rewrite <- E. pose proof (skip_ws_length t). simpl. lia. }
  destruct (c =? 123).
  { destruct (skip_ws t) as [|c' r] eqn:W; [discriminate|].
    destruct (c' =? 125); [discriminate | apply Ho, Sub; reflexivity]. }
  destruct (c =? 91).
  { destruct (skip_ws t) as [|c' r] eqn:W; [discriminate|].
    destruct (c' =? 93); [discriminate | apply Ha, Sub; reflexivity]. }
  destruct (scan_constant (c :: t)) as [[v r]|]; [discriminate|].
  destruct (match_number (c :: t)) as [[v r]|]; discriminate.
Qed.

Lemma value_local_shorter scan s v r :
  value_local scan -> scan s = Ok v r -> (length r < length s)%nat.
Proof.
  intros L H. apply L in H.
  destruct H as [body [c0 [c1 [-> [B _]]]]].
  apply (bounded_nonempty _ _ _ _ B).
Qed.

Lemma skip_ws_cons_length s c r :
  skip_ws s = c :: r -> (length r < length s)%nat.
Proof.
  intros E. pose proof (skip_ws_length s) as H. rewrite E in H.
  simpl in H. lia.
Qed.

Lemma array_step_total scan loop acc s :
  value_local scan -> scan s <> NoFuel ->
  (forall acc' s', (length s' + 2 <= length s)%nat ->
                   loop acc' s' <> NoFuel) ->
  array_step scan loop acc s <> NoFuel.
Proof.
  intros L Hs Hl. unfold array_step.
  destruct (scan s) as [v r| |] eqn:S; [|discriminate|congruence].
  pose proof (value_local_shorter _ _ _ _ L S) as Lr.
  destruct (skip_ws r) as [|c r'] eqn:W; [discriminate|].
  pose proof (skip_ws_cons_length _ _ _ W) as Lr'.
  destruct (c =? 93); [discriminate|].
  destruct (c =? 44); [|discriminate].
  apply Hl. pose proof (skip_ws_length r'). lia.
Qed.

Lemma scanstring_shorter s acc str r :
  scanstring s acc = Some (str, r) -> (length r < length s)%nat.
Proof.
  intros H. apply (scanstring_local (length s)) in H; [|lia].
  destruct H as [body [-> _]]. rewrite length_app. simpl. lia.
Qed.

Lemma object_step_total scan loop d s :
  value_local scan ->
  (forall s', (length s' < length s)%nat -> scan s' <> NoFuel) ->
  (forall d' s', (length s' + 2 <= length s)%nat -> loop d' s' <> NoFuel) ->
  object_step scan loop d s <> NoFuel.
Proof.
  intros L Hs Hl. unfold object_step.
  destruct s as [|q t]; [discriminate|].
  destruct (q =? 34); [|discriminate].
  destruct (scanstring t []) as [[k r]|] eqn:K; [|discriminate].
  apply scanstring_shorter in K.
  destruct (skip_ws r) as [|c r1] eqn:W; [discriminate|].
  apply skip_ws_cons_length in W.
  destruct (c =? 58); [|discriminate].
  pose proof (skip_ws_length r1) as W1.
  destruct (scan (skip_ws r1)) as [v r2| |] eqn:S; [|discriminate|].
  - pose proof (value_local_shorter _ _ _ _ L S) as Lr.
    destruct (skip_ws r2) as [|c' r3] eqn:W2; [discriminate|].
    apply skip_ws_cons_length in W2.
    destruct (c' =? 125); [discriminate|].
    destruct (c' =? 44); [|discriminate].
    apply Hl. pose proof (skip_ws_length r3). simpl. lia.
  - exfalso. apply (Hs (skip_ws r1)); [simpl; lia | exact S].
Qed.

(** The fuel of [fuel_for] is never used up. *)
Lemma scan_once_total n :
  (forall s, (2 * length s + 1 <= n)%nat -> scan_once n s <> NoFuel)
  /\ (forall acc s, (2 * length s + 2 <= n)%nat ->
                    parse_array n acc s <> NoFuel)
  /\ (forall d s, (2 * length s + 2 <= n)%nat ->
                  parse_object n d s <> NoFuel).
Proof.
  induction n as [|n [IHs [IHa IHo]]].
  - repeat split; intros; lia.
  - destruct (scan_once_local n) as [Ls _]. split; [|split].
    + intros s Hn. simpl.
      apply scan_value_total; intros s' Hs'; [apply IHa | apply IHo]; lia.
    + intros acc s Hn. simpl. apply array_step_total; [exact Ls| |].
      * apply IHs. lia.
      * intros acc' s' Hs'. apply IHa. lia.
    + intros d s Hn. simpl. apply object_step_total; [exact Ls| |].
      * intros s' Hs'. apply IHs. lia.
      * intros d' s' Hs'. apply IHo. lia.
Qed.

(** [json_loads] never runs out of fuel: its [None] is a rejection by the
    scanner. *)
Lemma scan_once_enough s : scan_once (fuel_for s) s <> NoFuel.
Proof. apply scan_once_total. unfold fuel_for. lia. Qed.

Theorem scan_once_fuel s n :
  (fuel_for s <= n)%nat -> scan_once n s = scan_once (fuel_for s) s.
Proof.
  intros H. destruct (scan_once_mono _ _ s H) as [E|E]; [|auto].
  exfalso. revert E. apply scan_once_total. unfold fuel_for. lia.
Qed.

(* ===================================================================== *)
(** ** [json.loads] and the whitespace around a document *)
(* ===================================================================== *)

Lemma scan_once_any_fuel n s v r :
  scan_once n s = Ok v r -> scan_once (fuel_for s) s = Ok v r.
Proof.
  intros H. destruct (Nat.le_ge_cases (fuel_for s) n) as [L|L].
  - rewrite <- (scan_once_fuel s n L). exact H.
  - destruct (scan_once_mono _ _ s L) as [E|E]; congruence.
Qed.

Lemma skip_ws_nil r : skip_ws r = [] -> forallb is_json_ws r = true.
Proof.
  intros E. destruct (skip_ws_split r) as [w [Er F]].
  rewrite E, app_nil_r in Er. subst w. exact F.
Qed.

Lemma skip_ws_of_ws w : forallb is_json_ws w = true -> skip_ws w = [].
Proof.
  intros F. rewrite <- (app_nil_r w), skip_ws_all by exact F. reflexivity.
Qed.

Lemma ws_value_stop_all w : forallb is_json_ws w = true -> value_stop w = true.
Proof.
  destruct w as [|c w]; [reflexivity|]. simpl. intros F.
  apply andb_true_iff in F. destruct F as [F _]. clear - F. char_classes.
Qed.

Lemma startswith_bom_false c s :
  c <> 65279 -> startswith (c :: s) [65279] = false.
Proof.
  intros H. simpl. apply andb_false_iff. left. apply N.eqb_neq. congruence.
Qed.

Lemma ws_not_bom c : is_json_ws c = true -> c <> 65279.
Proof. char_classes. Qed.

Theorem json_loads_inv s v :
  json_loads s = Some v ->
  exists w1 body w2,
    s = w1 ++ body ++ w2
    /\ forallb is_json_ws w1 = true /\ forallb is_json_ws w2 = true
    /\ value_text body v.
Proof.
  unfold json_loads. destruct (startswith s [65279]); [discriminate|].
  destruct (scan_once (fuel_for (skip_ws s)) (skip_ws s)) as [v' r| |] eqn:S;
    try discriminate.
  destruct (skip_ws r) eqn:W; [|discriminate]. intros H. injection H as ->.
  destruct (skip_ws_split s) as [w1 [Es F1]].
  destruct (scan_once_local (fuel_for (skip_ws s))) as [L _].
  apply L in S. destruct S as [body [c0 [c1 [Eb [B [V0 [V1 [O1 [O2 Lt]]]]]]]]].
  exists w1, body, r. split; [rewrite Es at 1; rewrite Eb; reflexivity|].
  split; [exact F1|]. split; [apply skip_ws_nil; exact W|].
  exists (fuel_for (skip_ws s)), c0, c1. auto 7.
Qed.

Theorem json_loads_intro w1 body w2 v :
  value_text body v ->
  forallb is_json_ws w1 = true -> forallb is_json_ws w2 = true ->
  json_loads (w1 ++ body ++ w2) = Some v.
Proof.
  intros [n [c0 [c1 [B [V0 [V1 [_ [_ L]]]]]]]] F1 F2. unfold json_loads.
  destruct B as [[tl E0] _]. subst body.
  assert (Bom : startswith (w1 ++ (c0 :: tl) ++ w2) [65279] = false).
  { destruct w1 as [|x w1].
    - apply startswith_bom_false, value_start_not_bom, V0.
    - apply startswith_bom_false, ws_not_bom.
      simpl in F1. apply andb_true_iff in F1. tauto. }
  rewrite Bom, skip_ws_all by exact F1.
  cbn [app]. rewrite skip_ws_stop by (apply value_start_not_ws; exact V0).
  change (c0 :: tl ++ w2) with ((c0 :: tl) ++ w2).
  rewrite (scan_once_any_fuel n _ v w2)
    by (apply L, ws_value_stop_all; exact F2).
  rewrite skip_ws_of_ws by exact F2. reflexivity.
Qed.

(** A document parses to the same value with and without its margins of
    whitespace. *)
Corollary json_loads_body body v :
  value_text body v -> json_loads body = Some v.
Proof.
  intros H.
  pose proof (json_loads_intro [] body [] v H eq_refl eq_refl) as E.
  simpl in E. rewrite app_nil_r in E. exact E.
Qed.

(** [strip] of a document is its body. *)
Lemma strip_document w1 body w2 v :
  value_text body v ->
  forallb is_json_ws w1 = true -> forallb is_json_ws w2 = true ->
  strip (w1 ++ body ++ w2) = body.
Proof.
  intros [n [c0 [c1 [[[tl E0] [ini E1]] [V0 [V1 _]]]]]] F1 F2.
  apply (strip_core _ _ _ c0 c1 tl ini);
    auto using forallb_ws_space, value_start_not_space, value_end_not_space.
Qed.

Lemma strip_body body v : value_text body v -> strip body = body.
Proof.
  intros H. pose proof (strip_document [] body [] v H eq_refl eq_refl) as E.
  simpl in E. rewrite app_nil_r in E. exact E.
Qed.

Lemma body_not_fenced body v :
  value_text body v -> startswith body fence = false.
Proof.
  intros [n [c0 [c1 [[[tl ->] _] [V0 _]]]]]. unfold fence. simpl.
  apply andb_false_iff. left. apply N.eqb_neq.
  intros E. apply (value_start_not_backtick _ V0). auto.
Qed.

(** Lines 107-114 leave of a document its body. *)
Lemma clean_text_document w1 body w2 v :
  value_text body v ->
  forallb is_json_ws w1 = true -> forallb is_json_ws w2 = true ->
  clean_text (w1 ++ body ++ w2) = body.
Proof.
  intros H F1 F2. unfold clean_text.
  rewrite (strip_document _ _ _ _ H F1 F2), (body_not_fenced _ _ H).
  apply (strip_body _ _ H).
Qed.

(* ===================================================================== *)
(** ** [find], [rfind] and slices *)
(* ===================================================================== *)

Local Open Scope Z_scope.

Lemma find_range c s : find c s = -1 \/ 0 <= find c s < Z.of_nat (length s).
Proof.
  induction s as [|x s IH]; simpl; [auto|].
  destruct (x =? c)%N; [right; lia|].
  destruct (find c s =? -1) eqn:E; [auto|].
  apply Z.eqb_neq in E. right. lia.
Qed.

Lemma rfind_range c s :
  rfind c s = -1 \/ 0 <= rfind c s < Z.of_nat (length s).
Proof.
  induction s as [|x s IH]; simpl; [auto|].
  destruct (rfind c s =? -1) eqn:E.
  - destruct (x =? c)%N; [right; lia | auto].
  - apply Z.eqb_neq in E. right. lia.
Qed.

(** [find] is the position of the first occurrence. *)
Lemma find_first c s :
  find c s <> -1 ->
  exists pre post,
    s = pre ++ c :: post /\ find c s = Z.of_nat (length pre)
    /\ find c pre = -1.
Proof.
  induction s as [|x s IH]; simpl; [congruence|].
  destruct (x =? c)%N eqn:X.
  - intros _. apply N.eqb_eq in X. subst x. exists [], s. auto.
  - destruct (find c s =? -1) eqn:E; [congruence|]. intros _.
    apply Z.eqb_neq in E. destruct (IH E) as [pre [post [-> [F N]]]].
    exists (x :: pre), post. simpl. rewrite X, N, F. simpl.
    repeat split. lia.
Qed.

(** [rfind] is the position of the last occurrence. *)
Lemma rfind_last c s :
  rfind c s <> -1 ->
  exists pre post,
    s = pre ++ c :: post /\ rfind c s = Z.of_nat (length pre)
    /\ rfind c post = -1.
Proof.
  induction s as [|x s IH]; simpl; [congruence|].
  destruct (rfind c s =? -1) eqn:E.
  - apply Z.eqb_eq in E. destruct (x =? c)%N eqn:X; [|congruence].
    intros _. apply N.eqb_eq in X. subst x. exists [], s. auto.
  - intros _. apply Z.eqb_neq in E.
    destruct (IH E) as [pre [post [-> [F N]]]].
    exists (x :: pre), post. simpl. rewrite F. repeat split; [lia|exact N].
Qed.

Lemma find_absent_app c a b :
  find c a = -1 -> find c (a ++ b) =
                   if find c b =? -1 then -1
                   else Z.of_nat (length a) + find c b.
Proof.
  induction a as [|x a IH].
  - intros _. simpl. destruct (find c b =? -1) eqn:E; [apply Z.eqb_eq in E|];
      auto.
  - cbn [find app length]. destruct (x =? c)%N; [discriminate|].
    cbv zeta. pose proof (find_range c a) as Ra.
    destruct (find c a =? -1) eqn:E.
    + intros _. apply Z.eqb_eq in E. rewrite (IH E).
      pose proof (find_range c b) as Rb.
      destruct (find c b =? -1) eqn:E'; [reflexivity|].
      apply Z.eqb_neq in E'.
      destruct (Z.of_nat (length a) + find c b =? -1) eqn:E''.
      * apply Z.eqb_eq in E''. lia.
      * lia.
    + apply Z.eqb_neq in E. intros H. lia.
Qed.

Lemma find_here c s : find c (c :: s) = 0.
Proof. simpl. rewrite N.eqb_refl. reflexivity. Qed.

Lemma rfind_app_absent c a b :
  rfind c b = -1 -> rfind c (a ++ b) = rfind c a.
Proof.
  intros H. induction a as [|x a IH]; simpl; [exact H|].
  rewrite IH. reflexivity.
Qed.

Lemma rfind_snoc c a : rfind c (a ++ [c]) = Z.of_nat (length a).
Proof.
  induction a as [|x a IH]; simpl; [rewrite N.eqb_refl; reflexivity|].
  rewrite IH. destruct (Z.of_nat (length a) =? -1) eqn:E; lia.
Qed.

Lemma find_ws c w :
  is_json_ws c = false -> forallb is_json_ws w = true -> find c w = -1.
Proof.
  intros C. induction w as [|x w IH]; simpl; [reflexivity|]. intros F.
  apply andb_true_iff in F. destruct F as [Fx F].
  destruct (x =? c)%N eqn:X; [apply N.eqb_eq in X; congruence|].
  rewrite (IH F). reflexivity.
Qed.

Lemma rfind_ws c w :
  is_json_ws c = false -> forallb is_json_ws w = true -> rfind c w = -1.
Proof.
  intros C. induction w as [|x w IH]; simpl; [reflexivity|]. intros F.
  apply andb_true_iff in F. destruct F as [Fx F]. rewrite (IH F). simpl.
  destruct (x =? c)%N eqn:X; [apply N.eqb_eq in X; congruence|reflexivity].
Qed.

Lemma slice_middle (a b c : text) :
  slice (a ++ b ++ c) (Z.of_nat (length a))
        (Z.of_nat (length a) + Z.of_nat (length b)) = b.
Proof.
  unfold slice. rewrite Nat2Z.id.
  replace (Z.to_nat (Z.of_nat (length a) + Z.of_nat (length b)
                     - Z.of_nat (length a))) with (length b) by lia.
  rewrite skipn_app, skipn_all, Nat.sub_diag. simpl.
  rewrite firstn_app, firstn_all, Nat.sub_diag. simpl.
  apply app_nil_r.
Qed.

Local Close Scope Z_scope.

(* ===================================================================== *)
(** ** The repair step: direct parse *)
(* ===================================================================== *)

(** C1. A text that is well-formed JSON (a plain [json.loads] of it gives
    [v]) never triggers the fence handling, is parsed directly after the
    cleaning, and the repair step returns exactly [v]. *)
Theorem repair_direct_json t v :
  json_loads t = Some v ->
  startswith (strip t) fence = false
  /\ json_loads (clean_text t) = Some v
  /\ extract_json (JString t) = Return v.
Proof.
  intros H. apply json_loads_inv in H.
  destruct H as [w1 [body [w2 [-> [F1 [F2 V]]]]]].
  assert (J : json_loads (clean_text (w1 ++ body ++ w2)) = Some v).
  { rewrite (clean_text_document _ _ _ _ V F1 F2).
    apply json_loads_body. exact V. }
  split; [|split].
  - rewrite (strip_document _ _ _ _ V F1 F2). apply (body_not_fenced _ _ V).
  - exact J.
  - simpl. unfold parse_cleaned. rewrite J. reflexivity.
Qed.

Lemma repair_direct_json_witness :
  json_loads (lit " {'name':'Oats','kcal':[389, 1.5e1]}\n")
  = Some (JObject [(lit "name", JString (lit "Oats"));
                   (lit "kcal", JArray [JInt 389; JFloat (FDec false 15 0)])])
  /\ extract_json (JString (lit " {'name':'Oats','kcal':[389, 1.5e1]}\n"))
     = Return (JObject [(lit "name", JString (lit "Oats"));
                        (lit "kcal",
                         JArray [JInt 389; JFloat (FDec false 15 0)])]).
Proof.
  split; [vm_compute; reflexivity|].
  apply (repair_direct_json
           (lit " {'name':'Oats','kcal':[389, 1.5e1]}\n")).
  vm_compute. reflexivity.
Defined.

(* ===================================================================== *)
(** ** The repair step: fenced text *)
(* ===================================================================== *)

Lemma is_backtick_false c : c <> 96 -> is_backtick c = false.
Proof.
  intros H. unfold is_backtick, backtick. simpl.
  rewrite orb_false_r. apply N.eqb_neq. exact H.
Qed.

Lemma space_not_backtick c : py_isspace c = true -> c <> 96.
Proof. char_classes. Qed.

Lemma lower_j c : lower_cp c = 106 -> c <> 96.
Proof.
  unfold lower_cp. destruct ((65 <=? c) && (c <=? 90)) eqn:E; intros H;
    bool_to_prop; lia.
Qed.

(** The last character of a body followed by whitespace is the last of the
    body or a whitespace. *)
Lemma last_with_margin (pre body w : text) c0 c1 :
  bounded body c0 c1 -> forallb py_isspace w = true ->
  exists ini cl,
    pre ++ body ++ w = ini ++ [cl] /\ (cl = c1 \/ py_isspace cl = true).
Proof.
  intros [_ [ini0 E]] F. destruct w as [|x w].
  - exists (pre ++ ini0), c1. rewrite E, app_nil_r, app_assoc. auto.
  - destruct (exists_last (l := x :: w)) as [wi [cl Ew]]; [discriminate|].
    exists (pre ++ body ++ wi), cl. rewrite Ew, !app_assoc. split; [auto|].
    right. rewrite Ew, forallb_app in F. apply andb_true_iff in F.
    destruct F as [_ F]. simpl in F. rewrite andb_true_r in F. exact F.
Qed.

Lemma startswith_app p s : startswith (p ++ s) p = true.
Proof.
  induction p as [|x p IH]; simpl; [reflexivity|].
  rewrite N.eqb_refl. exact IH.
Qed.

(** Lines 107-114 on a fenced document: what is left is its body. *)
Lemma clean_text_fenced sp1 tag w1 body w2 sp2 v :
  lower tag = json_tag ->
  value_text body v ->
  forallb py_isspace sp1 = true -> forallb py_isspace sp2 = true ->
  forallb py_isspace w1 = true -> forallb py_isspace w2 = true ->
  clean_text (sp1 ++ (fence ++ tag ++ w1 ++ body ++ w2 ++ fence) ++ sp2)
  = body.
Proof.
  intros T V G1 G2 F1 F2.
  destruct tag as [|a [|b [|c [|d [|e tag]]]]]; try discriminate.
  injection T as Ta Tb Tc Td.
  destruct V as [n [c0 [c1 [B [V0 [V1 _]]]]]].
  destruct (last_with_margin ([a; b; c; d] ++ w1) body w2 c0 c1 B F2)
    as [ini [cl [El Hl]]].
  rewrite <- app_assoc in El.
  assert (Ncl : cl <> 96).
  { destruct Hl as [-> | Hl]; [|apply space_not_backtick; exact Hl].
    apply value_end_not_backtick. exact V1. }
  set (core := [a; b; c; d] ++ w1 ++ body ++ w2) in *.
  assert (S1 : strip (sp1 ++ (fence ++ core ++ fence) ++ sp2)
               = fence ++ core ++ fence).
  { apply (strip_core _ _ _ 96 96 (96 :: 96 :: core ++ fence)
                      (fence ++ core ++ [96; 96]));
      try reflexivity; try assumption.
    unfold fence. simpl. rewrite <- !app_assoc. reflexivity. }
  assert (S2 : strip_chars backtick (fence ++ core ++ fence) = core).
  { apply (strip_with_core is_backtick fence fence core a cl
                           ([b; c; d] ++ w1 ++ body ++ w2) ini);
      try reflexivity; try exact El.
    - apply is_backtick_false, lower_j, Ta.
    - apply is_backtick_false, Ncl. }
  unfold clean_text.
  replace (fence ++ [a; b; c; d] ++ w1 ++ body ++ w2 ++ fence)
    with (fence ++ core ++ fence)
    by (unfold core; rewrite <- !app_assoc; reflexivity).
  rewrite S1.
  replace (startswith (fence ++ core ++ fence) fence) with true
    by (symmetry; apply startswith_app).
  rewrite S2.
  assert (S3 : startswith (lower core) json_tag = true).
  { unfold core, lower. simpl. rewrite Ta, Tb, Tc, Td. reflexivity. }
  rewrite S3. unfold core, slice_from. simpl.
  destruct B as [[tl E0] [ini' E1]].
  apply (strip_core _ _ _ c0 c1 tl ini');
    auto using value_start_not_space, value_end_not_space.
Qed.

(** C2. A text wrapped in a triple-backtick fence tagged [json], in any
    case, around a well-formed JSON document repairs to the value of the
    document, with any whitespace around the fence and between the fence
    and the document; the text of the specification repairs to the object
    parsed from [{"name":"Oats"}]. *)
Theorem repair_fenced_json :
  (forall sp1 tag w1 inner w2 sp2 v,
      lower tag = json_tag ->
      forallb py_isspace sp1 = true -> forallb py_isspace sp2 = true ->
      forallb py_isspace w1 = true -> forallb py_isspace w2 = true ->
      json_loads inner = Some v ->
      extract_json
        (JString (sp1 ++ (fence ++ tag ++ w1 ++ inner ++ w2 ++ fence) ++ sp2))
      = Return v)
  /\ extract_json (JString (lit "```json\n{'name':'Oats'}\n```"))
     = Return (JObject [(lit "name", JString (lit "Oats"))])
  /\ json_loads (lit "{'name':'Oats'}")
     = Some (JObject [(lit "name", JString (lit "Oats"))]).
Proof.
  split; [|split; vm_compute; reflexivity].
  intros sp1 tag w1 inner w2 sp2 v T G1 G2 F1 F2 H.
  apply json_loads_inv in H.
  destruct H as [i1 [body [i2 [-> [H1 [H2 V]]]]]].
  assert (E : fence ++ tag ++ w1 ++ (i1 ++ body ++ i2) ++ w2 ++ fence
              = fence ++ tag ++ (w1 ++ i1) ++ body ++ (i2 ++ w2) ++ fence)
    by (rewrite <- !app_assoc; reflexivity).
  unfold extract_json.
  rewrite E, (clean_text_fenced _ _ _ _ _ _ v T V G1 G2).
  - unfold parse_cleaned. rewrite (json_loads_body _ _ V). reflexivity.
  - rewrite forallb_app, F1, (forallb_ws_space _ H1). reflexivity.
  - rewrite forallb_app, F2, (forallb_ws_space _ H2). reflexivity.
Qed.

Lemma repair_fenced_json_witness :
  extract_json
    (JString (lit " " ++ (fence ++ lit "JSON" ++ lit "\n"
                          ++ lit " {'name':'Oats'} " ++ lit "\n" ++ fence)
              ++ lit "\n"))
  = Return (JObject [(lit "name", JString (lit "Oats"))]).
Proof.
  apply (proj1 repair_fenced_json (lit " ") (lit "JSON") (lit "\n")
               (lit " {'name':'Oats'} ") (lit "\n") (lit "\n"));
    vm_compute; reflexivity.
Defined.

(* ===================================================================== *)
(** ** The repair step: the scan for braces *)
(* ===================================================================== *)

Lemma json_loads_brace s v :
  json_loads (123 :: s) = Some v -> is_object v = true.
Proof.
  intros H. apply json_loads_inv in H.
  destruct H as [w1 [body [w2 [E [F1 [_ V]]]]]].
  destruct V as [n [c0 [c1 [[[tl ->] _] [_ [_ [_ [O _]]]]]]]].
  destruct w1 as [|x w1]; simpl in E; injection E as E _.
  - apply O. auto.
  - subst x. simpl in F1. discriminate F1.
Qed.

Lemma brace_slice_prose p1 body p2 :
  bounded body 123 125 ->
  find 123 p1 = (-1)%Z -> rfind 125 p2 = (-1)%Z ->
  brace_pair (p1 ++ body ++ p2) = true
  /\ brace_slice (p1 ++ body ++ p2) = body.
Proof.
  intros [[tl E0] [ini E1]] A1 A2.
  assert (Hf : find 123 (p1 ++ body ++ p2) = Z.of_nat (length p1)).
  { rewrite (find_absent_app _ _ _ A1), E0. cbn [app].
    rewrite find_here. simpl. lia. }
  assert (Hr : rfind 125 (p1 ++ body ++ p2)
               = Z.of_nat (length (p1 ++ ini))).
  { rewrite E1, !app_assoc, (rfind_app_absent _ _ _ A2).
    apply rfind_snoc. }
  assert (Li : (1 <= length ini)%nat).
  { destruct ini as [|x ini]; [|simpl; lia].
    rewrite E0 in E1. discriminate E1. }
  assert (Lb : length body = S (length ini)).
  { rewrite E1, length_app. simpl. lia. }
  unfold brace_pair, brace_slice. rewrite Hf, Hr, length_app. split.
  - apply andb_true_iff. split; [apply andb_true_iff; split|].
    + apply negb_true_iff, Z.eqb_neq. lia.
    + apply negb_true_iff, Z.eqb_neq. lia.
    + apply Z.gtb_lt. lia.
  - replace (Z.of_nat (length p1 + length ini) + 1)%Z
      with (Z.of_nat (length p1) + Z.of_nat (length body))%Z by lia.
    apply slice_middle.
Qed.

(** When there is a brace pair, the slice runs from the first opening
    brace to the last closing brace. *)
Lemma brace_slice_spec c :
  brace_pair c = true ->
  exists pre mid post,
    c = pre ++ (123 :: mid ++ [125]) ++ post
    /\ find 123 pre = (-1)%Z /\ rfind 125 post = (-1)%Z
    /\ brace_slice c = 123 :: mid ++ [125].
Proof.
  unfold brace_pair. intros H.
  apply andb_true_iff in H. destruct H as [H H3].
  apply andb_true_iff in H. destruct H as [H1 H2].
  apply negb_true_iff, Z.eqb_neq in H1.
  apply negb_true_iff, Z.eqb_neq in H2.
  apply Z.gtb_lt in H3.
  destruct (find_first _ _ H1) as [pre [post1 [E1 [F1 A1]]]].
  destruct (rfind_last _ _ H2) as [pre2 [post [E2 [F2 A2]]]].
  rewrite F1, F2 in H3.
  assert (E : pre ++ 123 :: post1 = pre2 ++ 125 :: post) by congruence.
  apply app_eq_app in E. destruct E as [l [[Ea Eb] | [Ea Eb]]].
  { exfalso. rewrite Ea, length_app in H3. lia. }
  destruct l as [|x mid].
  { exfalso. rewrite Ea, app_nil_r in H3. lia. }
  simpl in Eb. injection Eb as <- Eb.
  exists pre, mid, post.
  assert (Ec : c = pre ++ (123 :: mid ++ [125]) ++ post).
  { rewrite E1, Eb. cbn [app]. rewrite <- app_assoc. reflexivity. }
  split; [exact Ec|]. split; [exact A1|]. split; [exact A2|].
  assert (B : bounded (123 :: mid ++ [125]) 123 125) by apply bounded_snoc.
  destruct (brace_slice_prose pre _ post B A1 A2) as [_ S].
  rewrite Ec at 1. exact S.
Qed.

Lemma parse_cleaned_brace c :
  json_loads c = None -> brace_pair c = true ->
  parse_cleaned c =
  match json_loads (brace_slice c) with
  | Some v => Return v
  | None =>
      Raise (HTTPException 500 (lit "Failed to parse JSON from Gemini output"))
  end.
Proof.
  intros H P. unfold parse_cleaned. rewrite H. cbv zeta.
  unfold brace_pair in P. rewrite P. reflexivity.
Qed.

Lemma parse_cleaned_no_brace c :
  json_loads c = None -> brace_pair c = false ->
  parse_cleaned c =
  Raise (HTTPException 500 (lit "No JSON found in Gemini output")).
Proof.
  intros H P. unfold parse_cleaned. rewrite H. cbv zeta.
  unfold brace_pair in P. rewrite P. reflexivity.
Qed.

(** C3. When the direct parse of the cleaned text fails and the text from
    its first opening brace to its last closing brace parses, the repair
    step returns that parse, which is an object; this is the case for a
    valid JSON object between prose that has no opening brace before it
    and no closing brace after it, and for the text of the
    specification. After a failed direct parse the repair returns a value
    in no other case: it returns [v] exactly when there is such a pair of
    braces and the text between them parses to [v]. *)
Theorem repair_brace_scan :
  (forall t v,
      json_loads (clean_text t) = None ->
      brace_pair (clean_text t) = true ->
      json_loads (brace_slice (clean_text t)) = Some v ->
      extract_json (JString t) = Return v
      /\ is_object v = true
      /\ exists pre mid post,
           clean_text t = pre ++ (123 :: mid ++ [125]) ++ post
           /\ find 123 pre = (-1)%Z /\ rfind 125 post = (-1)%Z
           /\ brace_slice (clean_text t) = 123 :: mid ++ [125])
  /\ (forall t p1 doc p2 d,
         clean_text t = p1 ++ doc ++ p2 ->
         json_loads (clean_text t) = None ->
         find 123 p1 = (-1)%Z -> rfind 125 p2 = (-1)%Z ->
         json_loads doc = Some (JObject d) ->
         extract_json (JString t) = Return (JObject d))
  /\ (forall t v,
         json_loads (clean_text t) = None ->
         (extract_json (JString t) = Return v
          <-> brace_pair (clean_text t) = true
              /\ json_loads (brace_slice (clean_text t)) = Some v))
  /\ extract_json
       (JString (lit "Sure! {'name':'Oats','per_100g':{}} Hope that helps."))
     = Return (JObject [(lit "name", JString (lit "Oats"));
                        (lit "per_100g", JObject [])])
  /\ json_loads (lit "{'name':'Oats','per_100g':{}}")
     = Some (JObject [(lit "name", JString (lit "Oats"));
                      (lit "per_100g", JObject [])]).
Proof.
  split; [|split; [|split; [|split; vm_compute; reflexivity]]].
  - intros t v H P S.
    destruct (brace_slice_spec _ P) as [pre [mid [post [Ec [A1 [A2 Es]]]]]].
    split; [|split].
    + unfold extract_json. rewrite (parse_cleaned_brace _ H P), S.
      reflexivity.
    + rewrite Es in S. apply (json_loads_brace _ _ S).
    + exists pre, mid, post. auto.
  - intros t p1 doc p2 d Ec H A1 A2 J. apply json_loads_inv in J.
    destruct J as [w1 [body [w2 [-> [F1 [F2 V]]]]]].
    pose proof (json_loads_body _ _ V) as Jb.
    destruct V as [n [c0 [c1 [B [_ [_ [O _]]]]]]].
    destruct (O eq_refl) as [-> ->].
    assert (Ec' : clean_text t = (p1 ++ w1) ++ body ++ (w2 ++ p2))
      by (rewrite Ec, <- !app_assoc; reflexivity).
    assert (A1' : find 123 (p1 ++ w1) = (-1)%Z).
    { rewrite (find_absent_app _ _ _ A1), (find_ws 123 w1) by auto.
      reflexivity. }
    assert (A2' : rfind 125 (w2 ++ p2) = (-1)%Z).
    { rewrite (rfind_app_absent _ _ _ A2). apply rfind_ws; auto. }
    destruct (brace_slice_prose _ _ _ B A1' A2') as [P S].
    rewrite <- Ec' in P, S.
    unfold extract_json. rewrite (parse_cleaned_brace _ H P), S, Jb.
    reflexivity.
  - intros t v H. unfold extract_json. split.
    + intros E. destruct (brace_pair (clean_text t)) eqn:P.
      * rewrite (parse_cleaned_brace _ H P) in E.
        destruct (json_loads (brace_slice (clean_text t))) as [v'|];
          [|discriminate E].
        injection E as ->. split; reflexivity.
      * rewrite (parse_cleaned_no_brace _ H P) in E. discriminate E.
    + intros [P S]. rewrite (parse_cleaned_brace _ H P), S. reflexivity.
Qed.

Lemma repair_brace_scan_witness :
  extract_json (JString (lit "Label read: {'name':'Rye'} (done)"))
  = Return (JObject [(lit "name", JString (lit "Rye"))]).
Proof.
  apply (proj1 (proj2 repair_brace_scan)
               (lit "Label read: {'name':'Rye'} (done)")
               (lit "Label read: ") (lit "{'name':'Rye'}") (lit " (done)"));
    vm_compute; reflexivity.
Defined.

(** The counterexample to C3 as the specification words it, for every
    text that fails the direct parse and holds a valid object between
    prose: in this cleaned text the prose has braces of its own, the text
    from the first opening brace to the last closing brace is not JSON,
    and the repair raises although the object [{"a":1}] is there. The
    same happens with two objects side by side. *)
Lemma repair_brace_scan_counterexample :
  clean_text (lit "Values {approx}: {'a':1} (see label)")
  = lit "Values {approx}: " ++ lit "{'a':1}" ++ lit " (see label)"
  /\ json_loads (clean_text (lit "Values {approx}: {'a':1} (see label)"))
     = None
  /\ json_loads (lit "{'a':1}") = Some (JObject [(lit "a", JInt 1)])
  /\ brace_slice (clean_text (lit "Values {approx}: {'a':1} (see label)"))
     = lit "{approx}: {'a':1}"
  /\ json_loads (lit "{approx}: {'a':1}") = None
  /\ extract_json (JString (lit "Values {approx}: {'a':1} (see label)"))
     = Raise (HTTPException 500
                (lit "Failed to parse JSON from Gemini output"))
  /\ json_loads (lit "{'b':2}") = Some (JObject [(lit "b", JInt 2)])
  /\ extract_json (JString (lit "{'a':1} {'b':2}"))
     = Raise (HTTPException 500
                (lit "Failed to parse JSON from Gemini output")).
Proof. repeat split; vm_compute; reflexivity. Qed.

(* ===================================================================== *)
(** ** Running the operation *)
(* ===================================================================== *)

Lemma run_parse_label req w :
  run (parse_label req) w =
  match run (call_gemini (image_base64 req) (label_type_arg req)) w with
  | (Return parsed, log) => (normalize parsed, log)
  | (Raise e, log) => (Raise e, log)
  end.
Proof.
  unfold run, parse_label, bind, lift.
  destruct (call_gemini (image_base64 req) (label_type_arg req) w [])
    as [[parsed|e] log]; reflexivity.
Qed.

Lemma run_parse_label_route ostr oflt req w :
  run (parse_label_route ostr oflt req) w =
  match run (parse_label req) w with
  | (Return resp, log) => (validate_response ostr oflt resp, log)
  | (Raise e, log) => (Raise e, log)
  end.
Proof.
  unfold run, parse_label_route, bind, lift.
  destruct (parse_label req w []) as [[resp|e] log]; reflexivity.
Qed.

(** An exception of the handler leaves the route unchanged. *)
Lemma route_raises ostr oflt req w e log :
  run (parse_label req) w = (Raise e, log) ->
  run (parse_label_route ostr oflt req) w = (Raise e, log).
Proof. intros H. rewrite run_parse_label_route, H. reflexivity. Qed.

Lemma handler_raises req w e log :
  run (call_gemini (image_base64 req) (label_type_arg req)) w = (Raise e, log)
  -> run (parse_label req) w = (Raise e, log).
Proof. intros H. rewrite run_parse_label, H. reflexivity. Qed.

Lemma run_call_gemini_no_key w img lt :
  environ w GEMINI_API_KEY = None \/ environ w GEMINI_API_KEY = Some [] ->
  run (call_gemini img lt) w = (Raise ConfigurationError, []).
Proof.
  intros H. unfold run, call_gemini, bind, os_getenv, raise.
  destruct H as [-> | ->]; reflexivity.
Qed.

Lemma run_call_gemini_key w img lt c k :
  environ w GEMINI_API_KEY = Some (c :: k) ->
  run (call_gemini img lt) w =
  (match remote w (gemini_request (c :: k) img lt) with
   | RequestException e => Raise (UpstreamUnavailableError e)
   | Response status_code resp_text =>
       if negb (status_code =? 200)%Z
       then Raise (UpstreamError status_code resp_text)
       else
         match resp_json resp_text with
         | Raise e => Raise e
         | Return data =>
             match envelope_text data with
             | Raise _ => Raise MalformedUpstreamResponseError
             | Return t => extract_json t
             end
         end
   end, [gemini_request (c :: k) img lt]).
Proof.
  intros H. unfold run, call_gemini, bind, os_getenv, requests_post, raise,
    lift. rewrite H. cbn [app].
  destruct (remote w (gemini_request (c :: k) img lt))
    as [e | status_code resp_text]; [reflexivity|].
  destruct (negb (status_code =? 200)%Z); [reflexivity|].
  destruct (resp_json resp_text) as [data|e]; [|reflexivity].
  destruct (envelope_text data); reflexivity.
Qed.

Lemma run_call_gemini_answers w req t :
  upstream_answers w req t ->
  exists r,
    run (call_gemini (image_base64 req) (label_type_arg req)) w
    = (extract_json t, [r]).
Proof.
  intros [c [k [body [data [K [R [J E]]]]]]].
  exists (gemini_request (c :: k) (image_base64 req) (label_type_arg req)).
  rewrite (run_call_gemini_key _ _ _ _ _ K), R.
  change (negb (200 =? 200)%Z) with false. cbv iota.
  unfold resp_json. rewrite J, E. reflexivity.
Qed.

(* ===================================================================== *)
(** ** Errors of the operation *)
(* ===================================================================== *)

(** C4. When the direct parse of the cleaned text fails and there is no
    brace pair, or there is one and the text between the braces fails to
    parse too, the operation fails with [JsonExtractionError], an
    [HTTPException] of status 500. *)
Theorem no_json_extraction_error ostr oflt w req t :
  upstream_answers w req (JString t) ->
  json_loads (clean_text t) = None ->
  brace_pair (clean_text t) = false
  \/ json_loads (brace_slice (clean_text t)) = None ->
  exists detail,
    fst (run (parse_label_route ostr oflt req) w)
    = Raise (HTTPException 500 detail)
    /\ fst (run (parse_label req) w) = Raise (HTTPException 500 detail)
    /\ JsonExtractionError (HTTPException 500 detail)
    /\ (brace_pair (clean_text t) = false ->
        detail = lit "No JSON found in Gemini output")
    /\ (brace_pair (clean_text t) = true ->
        detail = lit "Failed to parse JSON from Gemini output").
Proof.
  intros U H C. destruct (run_call_gemini_answers _ _ _ U) as [r R].
  unfold extract_json in R.
  destruct (brace_pair (clean_text t)) eqn:P.
  - destruct C as [C|C]; [discriminate|].
    rewrite (parse_cleaned_brace _ H P), C in R.
    exists (lit "Failed to parse JSON from Gemini output").
    pose proof (handler_raises _ _ _ _ R) as R'.
    rewrite (route_raises ostr oflt _ _ _ _ R'), R'.
    split; [reflexivity|]. split; [reflexivity|].
    split; [left; reflexivity|]. split; [discriminate|reflexivity].
  - rewrite (parse_cleaned_no_brace _ H P) in R.
    exists (lit "No JSON found in Gemini output").
    pose proof (handler_raises _ _ _ _ R) as R'.
    rewrite (route_raises ostr oflt _ _ _ _ R'), R'.
    split; [reflexivity|]. split; [reflexivity|].
    split; [right; reflexivity|]. split; [reflexivity|discriminate].
Qed.

Lemma no_json_extraction_error_witness :
  fst (run (parse_label_route strict_str strict_float example_request)
           (world_with (Some (lit "secret"))
              (Response 200 (envelope_around (lit "sorry, no label")))))
  = Raise (HTTPException 500 (lit "No JSON found in Gemini output")).
Proof.
  destruct (no_json_extraction_error strict_str strict_float
              (world_with (Some (lit "secret"))
                 (Response 200 (envelope_around (lit "sorry, no label"))))
              example_request (lit "sorry, no label"))
    as [detail [R [_ [_ [D _]]]]].
  - exists 115, (lit "ecret"), (envelope_around (lit "sorry, no label")).
    eexists. split; [vm_compute; reflexivity|].
    split; [reflexivity|]. split; vm_compute; reflexivity.
  - vm_compute. reflexivity.
  - left. vm_compute. reflexivity.
  - rewrite R, D by (vm_compute; reflexivity). reflexivity.
Defined.

(** C6. When the API key is unset or empty, the operation fails with
    [ConfigurationError], an [HTTPException] of status 500, and the log of
    outbound requests is empty: no call to the remote end was made. *)
Theorem missing_key_no_network ostr oflt w req :
  environ w GEMINI_API_KEY = None \/ environ w GEMINI_API_KEY = Some [] ->
  run (parse_label_route ostr oflt req) w
  = (Raise (HTTPException 500 (lit "GEMINI_API_KEY not set on server")), [])
  /\ run (parse_label req) w = (Raise ConfigurationError, []).
Proof.
  intros H.
  pose proof (handler_raises req w _ _ (run_call_gemini_no_key w _ _ H)) as R.
  split; [|exact R]. apply route_raises. exact R.
Qed.

Lemma missing_key_no_network_witness :
  run (parse_label_route strict_str strict_float example_request)
      (world_with None (Response 200 (envelope_around (lit "{}"))))
  = (Raise (HTTPException 500 (lit "GEMINI_API_KEY not set on server")), []).
Proof.
  apply (missing_key_no_network strict_str strict_float
           (world_with None (Response 200 (envelope_around (lit "{}"))))
           example_request).
  left. reflexivity.
Defined.

Lemma contains_suffix (pre s : text) : contains s (pre ++ s).
Proof. exists pre, []. rewrite app_nil_r. reflexivity. Qed.

(** C7. When the remote end answers with a status other than 200, the
    operation fails with [UpstreamError]: an [HTTPException] with that
    status whose message is [Gemini error: ] followed by the first 500
    characters of the body and nothing more: the body is [head ++ rest]
    where [head], the part in the message, has 500 characters when the
    body has more than 500 and is the whole body otherwise. An answer
    429 with the body [rate limited] fails with status 429 and a message
    that contains [rate limited]. *)
Theorem upstream_error_status ostr oflt w req c k :
  environ w GEMINI_API_KEY = Some (c :: k) ->
  (forall status_code resp_text,
      remote w (gemini_request (c :: k) (image_base64 req)
                               (label_type_arg req))
      = Response status_code resp_text ->
      status_code <> 200%Z ->
      exists head rest,
        resp_text = head ++ rest
        /\ length head = Nat.min 500 (length resp_text)
        /\ run (parse_label_route ostr oflt req) w
           = (Raise (HTTPException status_code
                       (lit "Gemini error: " ++ head)),
              [gemini_request (c :: k) (image_base64 req)
                              (label_type_arg req)])
        /\ fst (run (parse_label req) w)
           = Raise (HTTPException status_code (lit "Gemini error: " ++ head))
        /\ UpstreamError status_code resp_text
           = HTTPException status_code (lit "Gemini error: " ++ head)
        /\ contains head (lit "Gemini error: " ++ head)
        /\ ((length resp_text <= 500)%nat -> head = resp_text /\ rest = [])
        /\ ((500 < length resp_text)%nat ->
            length head = 500%nat /\ rest <> []))
  /\ (remote w (gemini_request (c :: k) (image_base64 req)
                               (label_type_arg req))
      = Response 429 (lit "rate limited") ->
      fst (run (parse_label_route ostr oflt req) w)
      = Raise (HTTPException 429 (lit "Gemini error: rate limited"))
      /\ contains (lit "rate limited") (lit "Gemini error: rate limited")).
Proof.
  intros K.
  assert (G : forall status_code resp_text,
    remote w (gemini_request (c :: k) (image_base64 req)
                             (label_type_arg req))
    = Response status_code resp_text ->
    status_code <> 200%Z ->
    run (parse_label req) w
    = (Raise (UpstreamError status_code resp_text),
       [gemini_request (c :: k) (image_base64 req) (label_type_arg req)])).
  { intros status_code resp_text R N. apply handler_raises.
    rewrite (run_call_gemini_key _ _ _ _ _ K), R.
    apply Z.eqb_neq in N. rewrite N. reflexivity. }
  split.
  - intros status_code resp_text R N. pose proof (G _ _ R N) as H.
    exists (firstn 500 resp_text), (skipn 500 resp_text).
    pose proof (firstn_skipn 500 resp_text) as E.
    pose proof (length_firstn 500 resp_text) as L.
    split; [symmetry; exact E|]. split; [exact L|].
    split; [apply route_raises; exact H|].
    split; [rewrite H; reflexivity|].
    split; [reflexivity|].
    split; [apply contains_suffix|].
    split.
    + intros B. split; [apply firstn_all2; exact B|].
      apply skipn_all2. exact B.
    + intros B. split; [lia|]. intros Z.
      pose proof (length_skipn 500 resp_text) as S. rewrite Z in S.
      simpl in S. lia.
  - intros R. assert (N : 429%Z <> 200%Z) by discriminate.
    pose proof (G _ _ R N) as H.
    rewrite (route_raises ostr oflt _ _ _ _ H).
    split; [vm_compute; reflexivity|].
    exists (lit "Gemini error: "), []. vm_compute. reflexivity.
Qed.

Lemma upstream_error_status_witness :
  fst (run (parse_label_route strict_str strict_float example_request)
           (world_with (Some (lit "secret"))
                       (Response 429 (lit "rate limited"))))
  = Raise (HTTPException 429 (lit "Gemini error: rate limited"))
  /\ exists head rest,
       repeat 120 600 = head ++ rest
       /\ length head = 500%nat
       /\ fst (run (parse_label_route strict_str strict_float
                      example_request)
                   (world_with (Some (lit "secret"))
                               (Response 503 (repeat 120 600))))
          = Raise (HTTPException 503 (lit "Gemini error: " ++ head)).
Proof.
  split.
  - apply (proj2 (upstream_error_status strict_str strict_float
                    (world_with (Some (lit "secret"))
                                (Response 429 (lit "rate limited")))
                    example_request 115 (lit "ecret")
                    ltac:(vm_compute; reflexivity))).
    reflexivity.
  - destruct (proj1 (upstream_error_status strict_str strict_float
                       (world_with (Some (lit "secret"))
                                   (Response 503 (repeat 120 600)))
                       example_request 115 (lit "ecret")
                       ltac:(vm_compute; reflexivity))
                    503%Z (repeat 120 600) eq_refl
                    ltac:(discriminate))
      as [head [rest [E [L [Hr _]]]]].
    exists head, rest. split; [exact E|]. split; [exact L|].
    rewrite Hr. reflexivity.
Defined.

(** The lookup of lines 100-104 succeeds exactly on the envelopes that
    have the structural path of the specification. *)
Lemma envelope_text_path data :
  match structural_path data with
  | Some t => envelope_text data = Return t
  | None => exists e, envelope_text data = Raise e
  end.
Proof.
  unfold structural_path, envelope_text, getitem_key.
  destruct data; try (eexists; reflexivity).
  destruct (dict_lookup d (lit "candidates")) as [cands|];
    [|eexists; reflexivity].
  cbn [obind].
  destruct cands as [| | | |s|l|d0]; try (eexists; reflexivity).
  { destruct s; eexists; reflexivity. }
  destruct l as [|c0 l]; [eexists; reflexivity|].
  cbn [getitem_0 obind].
  destruct c0; try (eexists; reflexivity).
  destruct (dict_lookup d0 (lit "content")) as [content|];
    [|eexists; reflexivity].
  cbn [obind].
  destruct content; try (eexists; reflexivity).
  destruct (dict_lookup d1 (lit "parts")) as [parts|];
    [|eexists; reflexivity].
  cbn [obind].
  destruct parts as [| | | |s|l'|d2]; try (eexists; reflexivity).
  { destruct s; eexists; reflexivity. }
  destruct l' as [|p0 l']; [eexists; reflexivity|].
  cbn [getitem_0 obind].
  destruct p0; try (eexists; reflexivity).
  destruct (dict_lookup d2 (lit "text")); [reflexivity|eexists; reflexivity].
Qed.

(** C9. When the remote end answers 200 with an envelope that lacks the
    structural path [candidates[0].content.parts[0].text], the operation
    fails with [MalformedUpstreamResponseError], an [HTTPException] of
    status 500. *)
Theorem malformed_envelope ostr oflt w req c k resp_text data :
  environ w GEMINI_API_KEY = Some (c :: k) ->
  remote w (gemini_request (c :: k) (image_base64 req) (label_type_arg req))
  = Response 200 resp_text ->
  json_loads resp_text = Some data ->
  structural_path data = None ->
  fst (run (parse_label_route ostr oflt req) w)
  = Raise (HTTPException 500 (lit "Unexpected Gemini response format"))
  /\ fst (run (parse_label req) w) = Raise MalformedUpstreamResponseError.
Proof.
  intros K R J P.
  assert (H : run (parse_label req) w
              = (Raise MalformedUpstreamResponseError,
                 [gemini_request (c :: k) (image_base64 req)
                                 (label_type_arg req)])).
  { apply handler_raises.
    rewrite (run_call_gemini_key _ _ _ _ _ K), R.
    change (negb (200 =? 200)%Z) with false. cbv iota.
    unfold resp_json. rewrite J.
    pose proof (envelope_text_path data) as E. rewrite P in E.
    destruct E as [e ->]. reflexivity. }
  rewrite (route_raises ostr oflt _ _ _ _ H), H. split; reflexivity.
Qed.

Lemma malformed_envelope_witness :
  fst (run (parse_label_route strict_str strict_float example_request)
           (world_with (Some (lit "secret"))
              (Response 200 (lit "{'candidates':[]}"))))
  = Raise (HTTPException 500 (lit "Unexpected Gemini response format")).
Proof.
  apply (malformed_envelope strict_str strict_float
           (world_with (Some (lit "secret"))
              (Response 200 (lit "{'candidates':[]}")))
           example_request 115 (lit "ecret") (lit "{'candidates':[]}")
           (JObject [(lit "candidates", JArray [])]));
    vm_compute; reflexivity.
Defined.

(* ===================================================================== *)
(** ** Normalization *)
(* ===================================================================== *)

Lemma normalize_object d :
  normalize (JObject d) =
  Return (JObject
            [(lit "name", dict_get d (lit "name"));
             (lit "serving_size_g", dict_get d (lit "serving_size_g"));
             (lit "per_100g",
              py_or (dict_get d (lit "per_100g")) (JObject []));
             (lit "per_serving", dict_get d (lit "per_serving"));
             (lit "notes", dict_get d (lit "notes"));
             (lit "raw", JObject d)]).
Proof. reflexivity. Qed.

Lemma normalize_non_object v :
  is_object v = false -> normalize v = Raise AttributeError.
Proof. destruct v; try reflexivity. discriminate. Qed.

(** What a successful run of the handler returns. *)
Lemma handler_returns req w resp :
  fst (run (parse_label req) w) = Return resp ->
  exists d,
    fst (run (call_gemini (image_base64 req) (label_type_arg req)) w)
    = Return (JObject d)
    /\ normalize (JObject d) = Return resp.
Proof.
  rewrite run_parse_label.
  destruct (run (call_gemini (image_base64 req) (label_type_arg req)) w)
    as [[parsed|e] log]; simpl; [|discriminate].
  intros H. destruct parsed; try discriminate H.
  exists d. auto.
Qed.

(** What a successful run of the route returns: the validated fields of
    the dict of the handler. *)
Lemma route_returns ostr oflt req w resp :
  fst (run (parse_label_route ostr oflt req) w) = Return resp ->
  exists d name serving m per_serving notes,
    fst (run (call_gemini (image_base64 req) (label_type_arg req)) w)
    = Return (JObject d)
    /\ py_or (dict_get d (lit "per_100g")) (JObject []) = JObject m
    /\ resp = JObject
                [(lit "name", name);
                 (lit "serving_size_g", serving);
                 (lit "per_100g", JObject m);
                 (lit "per_serving", per_serving);
                 (lit "notes", notes);
                 (lit "raw", JObject d)].
Proof.
  rewrite run_parse_label_route.
  destruct (run (parse_label req) w) as [[r|e] log] eqn:R;
    simpl; [|discriminate].
  assert (R' : fst (run (parse_label req) w) = Return r)
    by (rewrite R; reflexivity).
  apply handler_returns in R'. destruct R' as [d [C N]].
  rewrite normalize_object in N. injection N as <-.
  unfold validate_response.
  change (field _ (lit "name") JNull) with (dict_get d (lit "name")).
  change (field _ (lit "serving_size_g") JNull)
    with (dict_get d (lit "serving_size_g")).
  change (field _ (lit "per_100g") (JObject []))
    with (py_or (dict_get d (lit "per_100g")) (JObject [])).
  change (field _ (lit "per_serving") JNull)
    with (dict_get d (lit "per_serving")).
  change (field _ (lit "notes") JNull) with (dict_get d (lit "notes")).
  change (field _ (lit "raw") JNull) with (JObject d).
  destruct (ostr (dict_get d (lit "name"))) as [name|]; [|discriminate].
  destruct (oflt (dict_get d (lit "serving_size_g"))) as [serving|];
    [|discriminate].
  destruct (py_or (dict_get d (lit "per_100g")) (JObject [])) as [| | | | | |m]
    eqn:P; try discriminate.
  cbn [dict_str_any].
  destruct (optional_dict_str_any (dict_get d (lit "per_serving")))
    as [per_serving|]; [|discriminate].
  destruct (ostr (dict_get d (lit "notes"))) as [notes|]; [|discriminate].
  cbn [optional_dict_str_any dict_str_any].
  intros H. injection H as <-.
  exists d, name, serving, m, per_serving, notes. auto.
Qed.

Lemma py_or_default p m :
  py_or p (JObject []) = JObject m ->
  (truthy p = false -> m = []) /\ (truthy p = true -> p = JObject m).
Proof.
  unfold py_or. destruct (truthy p); intros H; split; intros T;
    try discriminate T; congruence.
Qed.

(** C5. In every successful invocation the response has a [per_100g] and
    it is a mapping: the empty mapping when the repaired object has no
    [per_100g] or a falsy one, and otherwise the mapping the repaired
    object holds there. The dict returned by the handler always has the
    key, with the same default. *)
Theorem per_100g_always_mapping :
  (forall ostr oflt w req resp,
      fst (run (parse_label_route ostr oflt req) w) = Return resp ->
      exists d r m,
        fst (run (call_gemini (image_base64 req) (label_type_arg req)) w)
        = Return (JObject d)
        /\ resp = JObject r
        /\ dict_lookup r (lit "per_100g") = Some (JObject m)
        /\ (dict_lookup d (lit "per_100g") = None -> m = [])
        /\ (forall p, dict_lookup d (lit "per_100g") = Some p ->
                      truthy p = false -> m = [])
        /\ (forall p, dict_lookup d (lit "per_100g") = Some p ->
                      truthy p = true -> p = JObject m))
  /\ (forall w req resp,
         fst (run (parse_label req) w) = Return resp ->
         exists d r x,
           fst (run (call_gemini (image_base64 req) (label_type_arg req)) w)
           = Return (JObject d)
           /\ resp = JObject r
           /\ dict_lookup r (lit "per_100g") = Some x
           /\ (dict_lookup d (lit "per_100g") = None -> x = JObject [])
           /\ (forall p, dict_lookup d (lit "per_100g") = Some p ->
                         truthy p = false -> x = JObject [])
           /\ (forall p, dict_lookup d (lit "per_100g") = Some p ->
                         truthy p = true -> x = p)).
Proof.
  split.
  - intros ostr oflt w req resp H. apply route_returns in H.
    destruct H as [d [name [serving [m [ps [notes [C [P ->]]]]]]]].
    exists d. eexists. exists m.
    split; [exact C|]. split; [reflexivity|]. split; [reflexivity|].
    apply py_or_default in P. destruct P as [P0 P1].
    unfold dict_get in P0, P1. split; [|split].
    + intros E. rewrite E in P0. apply P0. reflexivity.
    + intros p E. rewrite E in P0. exact P0.
    + intros p E. rewrite E in P1. exact P1.
  - intros w req resp H. apply handler_returns in H.
    destruct H as [d [C N]]. rewrite normalize_object in N.
    injection N as <-. exists d. eexists.
    exists (py_or (dict_get d (lit "per_100g")) (JObject [])).
    split; [exact C|]. split; [reflexivity|]. split; [reflexivity|].
    unfold py_or, dict_get. split; [|split].
    + intros ->. reflexivity.
    + intros p -> ->. reflexivity.
    + intros p -> ->. reflexivity.
Qed.

Lemma per_100g_always_mapping_witness :
  exists d r m,
    fst (run (call_gemini (image_base64 example_request)
                          (label_type_arg example_request))
             (world_with (Some (lit "secret"))
                (Response 200
                   (envelope_around
                      (lit "{\'name\':\'Oats\',\'per_100g\':null}")))))
    = Return (JObject d)
    /\ JObject [(lit "name", JString (lit "Oats"));
                (lit "serving_size_g", JNull);
                (lit "per_100g", JObject []);
                (lit "per_serving", JNull);
                (lit "notes", JNull);
                (lit "raw", JObject [(lit "name", JString (lit "Oats"));
                                     (lit "per_100g", JNull)])]
       = JObject r
    /\ dict_lookup r (lit "per_100g") = Some (JObject m)
    /\ (dict_lookup d (lit "per_100g") = None -> m = [])
    /\ (forall p, dict_lookup d (lit "per_100g") = Some p ->
                  truthy p = false -> m = [])
    /\ (forall p, dict_lookup d (lit "per_100g") = Some p ->
                  truthy p = true -> p = JObject m).
Proof.
  apply (proj1 per_100g_always_mapping strict_str strict_float).
  vm_compute. reflexivity.
Defined.

(** C8. The [raw] field of the normalized response is the repaired object
    itself, whatever its keys: in the dict the handler builds, and in the
    response of every successful invocation. *)
Theorem raw_is_verbatim :
  (forall d,
      exists r,
        normalize (JObject d) = Return (JObject r)
        /\ dict_lookup r (lit "raw") = Some (JObject d))
  /\ (forall ostr oflt w req resp,
         fst (run (parse_label_route ostr oflt req) w) = Return resp ->
         exists d r,
           fst (run (call_gemini (image_base64 req) (label_type_arg req)) w)
           = Return (JObject d)
           /\ resp = JObject r
           /\ dict_lookup r (lit "raw") = Some (JObject d)).
Proof.
  split.
  - intros d. eexists. rewrite normalize_object. split; reflexivity.
  - intros ostr oflt w req resp H. apply route_returns in H.
    destruct H as [d [name [serving [m [ps [notes [C [P ->]]]]]]]].
    exists d. eexists. split; [exact C|]. split; reflexivity.
Qed.

Lemma raw_is_verbatim_witness :
  exists d r,
    fst (run (call_gemini (image_base64 example_request)
                          (label_type_arg example_request))
             (world_with (Some (lit "secret"))
                (Response 200
                   (envelope_around
                      (lit "{\'name\':\'Oats\',\'brand\':\'X\',\'score\':[1]}")))))
    = Return (JObject d)
    /\ JObject [(lit "name", JString (lit "Oats"));
                (lit "serving_size_g", JNull);
                (lit "per_100g", JObject []);
                (lit "per_serving", JNull);
                (lit "notes", JNull);
                (lit "raw", JObject [(lit "name", JString (lit "Oats"));
                                     (lit "brand", JString (lit "X"));
                                     (lit "score", JArray [JInt 1])])]
       = JObject r
    /\ dict_lookup r (lit "raw") = Some (JObject d).
Proof.
  apply (proj2 raw_is_verbatim strict_str strict_float).
  vm_compute. reflexivity.
Defined.

(** C10. When the repair of the upstream text gives a JSON value that is
    not an object, the key lookups of the normalization raise
    [AttributeError]: the operation returns no response and raises no
    [HTTPException], so none of the five error kinds. *)
Theorem non_object_unhandled ostr oflt w req t v :
  upstream_answers w req (JString t) ->
  extract_json (JString t) = Return v ->
  is_object v = false ->
  normalize v = Raise AttributeError
  /\ fst (run (parse_label req) w) = Raise AttributeError
  /\ fst (run (parse_label_route ostr oflt req) w) = Raise AttributeError
  /\ (forall resp,
         fst (run (parse_label_route ostr oflt req) w) <> Return resp)
  /\ (forall status_code detail,
         fst (run (parse_label_route ostr oflt req) w)
         <> Raise (HTTPException status_code detail)).
Proof.
  intros U E O. destruct (run_call_gemini_answers _ _ _ U) as [r R].
  rewrite E in R.
  pose proof (normalize_non_object _ O) as N.
  assert (H : run (parse_label req) w = (Raise AttributeError, [r])).
  { rewrite run_parse_label, R, N. reflexivity. }
  rewrite (route_raises ostr oflt _ _ _ _ H), H.
  split; [exact N|]. split; [reflexivity|]. split; [reflexivity|].
  split; intros; discriminate.
Qed.

Lemma non_object_unhandled_witness :
  fst (run (parse_label_route strict_str strict_float example_request)
           (world_with (Some (lit "secret"))
              (Response 200 (envelope_around (lit "[1, 2]")))))
  = Raise AttributeError.
Proof.
  apply (non_object_unhandled strict_str strict_float
           (world_with (Some (lit "secret"))
              (Response 200 (envelope_around (lit "[1, 2]"))))
           example_request (lit "[1, 2]") (JArray [JInt 1; JInt 2])).
  - exists 115, (lit "ecret"), (envelope_around (lit "[1, 2]")).
    eexists. split; [vm_compute; reflexivity|].
    split; [reflexivity|]. split; vm_compute; reflexivity.
  - vm_compute. reflexivity.
  - reflexivity.
Defined.

(* ===================================================================== *)
(** ** Examples *)
(* ===================================================================== *)

Example lit_conventions : lit "{'a':\n}" = [123; 34; 97; 34; 58; 10; 125].
Proof. reflexivity. Qed.

Example json_loads_nested :
  json_loads (lit " {'a': [1, -2.50e3, true, null], 'b': {}, 'a': 'x'} ")
  = Some (JObject [(lit "a", JString (lit "x")); (lit "b", JObject [])]).
Proof. vm_compute. reflexivity. Qed.

Example json_loads_numbers :
  map json_loads [lit "01"; lit "1e+"; lit "-"; lit "1."; lit "-0";
                  lit "0.0"; lit "-Infinity"; lit "NaN"]
  = [None; None; None; None; Some (JInt 0);
     Some (JFloat (FDec false 0 (-1))); Some (JFloat (FInf true));
     Some (JFloat FNaN)].
Proof. vm_compute. reflexivity. Qed.

Example json_loads_rejects :
  map json_loads [lit "[1,]"; lit "{'a' 1}"; lit "'a\nb'"; lit "[1] x";
                  lit ""; lit "nul"; 65279 :: lit "1"]
  = [None; None; None; None; None; None; None].
Proof. vm_compute. reflexivity. Qed.

Example json_loads_surrogate_pair :
  json_loads (34 :: 92 :: lit "ud83d" ++ 92 :: lit "ude00" ++ [34])
  = Some (JString [128512]).
Proof. vm_compute. reflexivity. Qed.

Example truthy_values :
  map truthy [JNull; JBool false; JInt 0; JFloat (FDec true 0 (-1));
              JString []; JArray []; JObject []; JFloat FNaN; JInt 5;
              JString (lit "0"); JArray [JNull]]
  = [false; false; false; false; false; false; false; true; true; true;
     true].
Proof. vm_compute. reflexivity. Qed.

(** The scenario of the specification with the answer for almonds. *)
Example almonds_end_to_end :
  run (parse_label_route strict_str strict_float example_request)
      (world_with (Some (lit "secret"))
         (Response 200
            (envelope_around
               (lit "{\'name\':\'Almonds\',\'serving_size_g\':28,\'per_100g\':{\'calories_kcal\':579,\'protein_g\':21.2},\'notes\':\'approx\'}"))))
  = (Return
       (JObject
          [(lit "name", JString (lit "Almonds"));
           (lit "serving_size_g", JInt 28);
           (lit "per_100g",
            JObject [(lit "calories_kcal", JInt 579);
                     (lit "protein_g", JFloat (FDec false 212 (-1)))]);
           (lit "per_serving", JNull);
           (lit "notes", JString (lit "approx"));
           (lit "raw",
            JObject
              [(lit "name", JString (lit "Almonds"));
               (lit "serving_size_g", JInt 28);
               (lit "per_100g",
                JObject [(lit "calories_kcal", JInt 579);
                         (lit "protein_g", JFloat (FDec false 212 (-1)))]);
               (lit "notes", JString (lit "approx"))])]),
     [gemini_request (lit "secret") (lit "aGVsbG8=") (lit "nutrition")]).
Proof. vm_compute. reflexivity. Qed.

(** A truthy [per_100g] that is no mapping stays in the dict of the
    handler and is refused by the response model. *)
Example per_100g_number_refused :
  let w := world_with (Some (lit "secret"))
             (Response 200 (envelope_around (lit "{\'per_100g\':5}"))) in
  fst (run (parse_label example_request) w)
  = Return (JObject [(lit "name", JNull);
                     (lit "serving_size_g", JNull);
                     (lit "per_100g", JInt 5);
                     (lit "per_serving", JNull);
                     (lit "notes", JNull);
                     (lit "raw", JObject [(lit "per_100g", JInt 5)])])
  /\ fst (run (parse_label_route strict_str strict_float example_request) w)
     = Raise ResponseValidationError.
Proof. split; vm_compute; reflexivity. Qed.

(** A transport failure is reported with status 502. *)
Example transport_failure :
  fst (run (parse_label example_request)
           (world_with (Some (lit "secret"))
                       (RequestException (lit "timed out"))))
  = Raise (UpstreamUnavailableError (lit "timed out")).
Proof. vm_compute. reflexivity. Qed.

(* ===================================================================== *)
(** ** More on stripping and on the cleaning of lines 107-114 *)
(* ===================================================================== *)

Lemma drop_while_all_nil p w : forallb p w = true -> drop_while p w = [].
Proof.
  intros F. rewrite <- (app_nil_r w), drop_while_all by exact F. reflexivity.
Qed.

Lemma drop_while_head p s c r : drop_while p s = c :: r -> p c = false.
Proof.
  induction s as [|x s IH]; simpl; [discriminate|].
  destruct (p x) eqn:Hx; [exact IH|].
  intros E. injection E as -> _. exact Hx.
Qed.

(** Margins of characters that are stripped do not change the result. *)
Lemma strip_with_margins p w1 s w2 :
  forallb p w1 = true -> forallb p w2 = true ->
  strip_with p (w1 ++ s ++ w2) = strip_with p s.
Proof.
  intros F1 F2. unfold strip_with, lstrip_with, rstrip_with.
  rewrite drop_while_all by exact F1.
  destruct (drop_while_split p s) as [w [Es Fw]].
  destruct (drop_while p s) as [|x y] eqn:D.
  - rewrite app_nil_r in Es. subst w.
    rewrite drop_while_all by exact Fw.
    rewrite (drop_while_all_nil _ _ F2). reflexivity.
  - pose proof (drop_while_head _ _ _ _ D) as Hx.
    rewrite Es at 1. rewrite <- app_assoc, drop_while_all by exact Fw.
    cbn [app drop_while]. rewrite Hx.
    change (x :: y ++ w2) with ((x :: y) ++ w2).
    rewrite rev_app_distr, drop_while_all by (apply forallb_rev; exact F2).
    reflexivity.
Qed.

(** What is left after stripping is empty, or begins and ends with a
    character that is not stripped. *)
Lemma strip_with_shape p s :
  strip_with p s = []
  \/ exists c0 c1,
       bounded (strip_with p s) c0 c1 /\ p c0 = false /\ p c1 = false.
Proof.
  unfold strip_with, lstrip_with, rstrip_with.
  set (y := drop_while p s).
  destruct (drop_while_split p (rev y)) as [w [Ey Fw]].
  destruct (drop_while p (rev y)) as [|c1 z] eqn:D; [left; reflexivity|].
  right. pose proof (drop_while_head _ _ _ _ D) as H1.
  assert (Yr : y = rev (c1 :: z) ++ rev w).
  { rewrite <- rev_app_distr, <- Ey, rev_involutive. reflexivity. }
  destruct (rev (c1 :: z)) as [|c0 tl] eqn:R.
  { exfalso. apply (f_equal (@length N)) in R.
    rewrite length_rev in R. discriminate R. }
  exists c0, c1. split; [split|split].
  - exists tl. reflexivity.
  - exists (rev z). rewrite <- R. reflexivity.
  - apply (drop_while_head p s c0 (tl ++ rev w)). fold y. rewrite Yr.
    reflexivity.
  - exact H1.
Qed.

Lemma strip_with_idempotent p s :
  strip_with p (strip_with p s) = strip_with p s.
Proof.
  destruct (strip_with_shape p s)
    as [E | [c0 [c1 [[[tl E0] [ini E1]] [P0 P1]]]]].
  - rewrite E. reflexivity.
  - pose proof (strip_with_core p [] [] _ c0 c1 tl ini eq_refl eq_refl
                                E0 E1 P0 P1) as H.
    simpl in H. rewrite app_nil_r in H. exact H.
Qed.

(** X1. The cleaned text has no whitespace at either end: it is empty, or
    its first and last characters are not whitespace, and stripping it
    again changes nothing. *)
Theorem clean_text_is_stripped t :
  (clean_text t = []
   \/ exists c0 c1,
        bounded (clean_text t) c0 c1
        /\ py_isspace c0 = false /\ py_isspace c1 = false)
  /\ strip (clean_text t) = clean_text t.
Proof.
  unfold clean_text. split.
  - apply (strip_with_shape py_isspace).
  - apply (strip_with_idempotent py_isspace).
Qed.

(** X2. Whitespace before and after the answer of the model never
    matters: the cleaned text and the result of the repair are those of
    the answer without it. *)
Theorem repair_ignores_outer_whitespace sp1 t sp2 :
  forallb py_isspace sp1 = true -> forallb py_isspace sp2 = true ->
  clean_text (sp1 ++ t ++ sp2) = clean_text t
  /\ extract_json (JString (sp1 ++ t ++ sp2)) = extract_json (JString t).
Proof.
  intros F1 F2.
  assert (E : clean_text (sp1 ++ t ++ sp2) = clean_text t).
  { unfold clean_text, strip.
    rewrite (strip_with_margins _ _ _ _ F1 F2). reflexivity. }
  split; [exact E|]. unfold extract_json. rewrite E. reflexivity.
Qed.

Lemma repair_ignores_outer_whitespace_witness :
  clean_text (lit " \n" ++ lit "x {'a': 1} y" ++ lit "\n\n")
  = clean_text (lit "x {'a': 1} y")
  /\ extract_json (JString (lit " \n" ++ lit "x {'a': 1} y" ++ lit "\n\n"))
     = extract_json (JString (lit "x {'a': 1} y")).
Proof.
  apply (repair_ignores_outer_whitespace (lit " \n") (lit "x {'a': 1} y")
                                         (lit "\n\n"));
    reflexivity.
Defined.

Lemma is_backtick_true c : is_backtick c = true -> c = 96.
Proof.
  unfold is_backtick, backtick. simpl. rewrite orb_false_r.
  apply N.eqb_eq.
Qed.

Lemma backtick_not_space c : is_backtick c = true -> py_isspace c = false.
Proof. intros H. apply is_backtick_true in H. subst c. reflexivity. Qed.

Lemma lower_not_j c :
  value_start c = true \/ py_isspace c = true -> lower_cp c <> 106.
Proof.
  unfold lower_cp. destruct ((65 <=? c) && (c <=? 90)) eqn:E; intros H;
    char_classes.
Qed.

(** The first character of whitespace followed by a body is a whitespace
    or the first of the body. *)
Lemma first_with_margin (w body rest : text) c0 c1 :
  bounded body c0 c1 -> forallb py_isspace w = true ->
  exists c tl,
    w ++ body ++ rest = c :: tl /\ (c = c0 \/ py_isspace c = true).
Proof.
  intros [[tl0 E] _] F. destruct w as [|x w].
  - exists c0, (tl0 ++ rest). rewrite E. auto.
  - exists x, (w ++ body ++ rest). split; [reflexivity|]. right.
    simpl in F. apply andb_true_iff in F. tauto.
Qed.

(** Line 112-114 on what the backticks enclosed: an optional [json] tag,
    whitespace, a document, whitespace. *)
Lemma after_backticks tagopt w1 body w2 v :
  tagopt = [] \/ lower tagopt = json_tag ->
  forallb py_isspace w1 = true -> forallb py_isspace w2 = true ->
  value_text body v ->
  strip (if startswith (lower (tagopt ++ w1 ++ body ++ w2)) json_tag
         then slice_from (tagopt ++ w1 ++ body ++ w2) 4
         else tagopt ++ w1 ++ body ++ w2)
  = body.
Proof.
  intros T F1 F2 [n [c0 [c1 [B [V0 [V1 _]]]]]].
  assert (S : strip (w1 ++ body ++ w2) = body).
  { destruct B as [[tl E0] [ini E1]].
    apply (strip_core _ _ _ c0 c1 tl ini);
      auto using value_start_not_space, value_end_not_space. }
  destruct T as [-> | T].
  - cbn [app].
    destruct (first_with_margin w1 body w2 c0 c1 B F1) as [c [tl [E Hc]]].
    assert (J : lower_cp c <> 106).
    { apply lower_not_j. destruct Hc as [-> | Hc]; auto. }
    assert (N : startswith (lower (w1 ++ body ++ w2)) json_tag = false).
    { rewrite E. unfold lower, json_tag. simpl.
      apply andb_false_iff. left. apply N.eqb_neq. congruence. }
    rewrite N. exact S.
  - destruct tagopt as [|a [|b [|c [|d [|e tagopt]]]]]; try discriminate.
    injection T as Ta Tb Tc Td.
    assert (Y : startswith (lower ([a; b; c; d] ++ w1 ++ body ++ w2)) json_tag
                = true).
    { unfold lower. simpl. rewrite Ta, Tb, Tc, Td. reflexivity. }
    rewrite Y. unfold slice_from. simpl. exact S.
Qed.

(** Lines 107-111 on a text that opens with three or more backticks. *)
Lemma clean_text_backticks sp1 b1 core b2 sp2 c0 c1 tl ini :
  forallb py_isspace sp1 = true -> forallb py_isspace sp2 = true ->
  forallb is_backtick b1 = true -> forallb is_backtick b2 = true ->
  core = c0 :: tl -> core = ini ++ [c1] ->
  c0 <> 96 -> c1 <> 96 ->
  b2 <> [] \/ py_isspace c1 = false ->
  clean_text (sp1 ++ (fence ++ b1 ++ core ++ b2) ++ sp2)
  = strip (if startswith (lower core) json_tag
           then slice_from core 4 else core).
Proof.
  intros G1 G2 K1 K2 E0 E1 N0 N1 End.
  set (T := fence ++ b1 ++ core ++ b2).
  assert (Last : exists iniT cl, T = iniT ++ [cl] /\ py_isspace cl = false).
  { destruct b2 as [|x b2].
    - destruct End as [End | End]; [congruence|].
      exists (fence ++ b1 ++ ini), c1. unfold T.
      rewrite app_nil_r, E1, <- !app_assoc. auto.
    - destruct (exists_last (l := x :: b2)) as [bi [cl Eb]]; [discriminate|].
      exists (fence ++ b1 ++ core ++ bi), cl. unfold T.
      rewrite Eb, <- !app_assoc. split; [reflexivity|].
      apply backtick_not_space. rewrite Eb, forallb_app in K2.
      apply andb_true_iff in K2. destruct K2 as [_ K2]. simpl in K2.
      rewrite andb_true_r in K2. exact K2. }
  destruct Last as [iniT [cl [EL HL]]].
  assert (S1 : strip (sp1 ++ T ++ sp2) = T).
  { apply (strip_core _ _ _ 96 cl (96 :: 96 :: b1 ++ core ++ b2) iniT);
      try assumption; reflexivity. }
  assert (S2 : strip_chars backtick T = core).
  { unfold T. rewrite app_assoc.
    apply (strip_with_core is_backtick (fence ++ b1) b2 core c0 c1 tl ini);
      try assumption.
    - apply is_backtick_false. exact N0.
    - apply is_backtick_false. exact N1. }
  unfold clean_text. fold T. rewrite S1.
  replace (startswith T fence) with true
    by (symmetry; apply startswith_app).
  rewrite S2. reflexivity.
Qed.

(** X3. The fence handling does not need the exact fence of the
    specification: the opening fence may have more than three backticks,
    the [json] tag may be missing, and the closing fence may be missing
    or have any number of backticks; around a well-formed JSON document
    the repair returns the value of the document. *)
Theorem repair_fence_variants sp1 b1 tagopt w1 inner w2 b2 sp2 v :
  tagopt = [] \/ lower tagopt = json_tag ->
  forallb py_isspace sp1 = true -> forallb py_isspace sp2 = true ->
  forallb py_isspace w1 = true -> forallb py_isspace w2 = true ->
  forallb is_backtick b1 = true -> forallb is_backtick b2 = true ->
  json_loads inner = Some v ->
  extract_json
    (JString (sp1 ++ (fence ++ b1 ++ tagopt ++ w1 ++ inner ++ w2 ++ b2)
              ++ sp2))
  = Return v.
Proof.
  intros T G1 G2 F1 F2 K1 K2 H. apply json_loads_inv in H.
  destruct H as [i1 [body [i2 [-> [H1 [H2 V]]]]]].
  pose proof (forallb_ws_space _ H1) as P1.
  pose proof (forallb_ws_space _ H2) as P2.
  pose proof V as [n [c0 [c1 [B [V0 [V1 _]]]]]].
  assert (W1 : forallb py_isspace (w1 ++ i1) = true)
    by (rewrite forallb_app, F1, P1; reflexivity).
  assert (First : exists x tl,
             tagopt ++ (w1 ++ i1) ++ body ++ [] = x :: tl /\ x <> 96).
  { destruct T as [-> | T].
    - destruct (first_with_margin (w1 ++ i1) body [] c0 c1 B W1)
        as [x [tl [E Hx]]].
      exists x, tl. split; [exact E|].
      destruct Hx as [-> | Hx];
        [apply value_start_not_backtick; exact V0
        |apply space_not_backtick; exact Hx].
    - destruct tagopt as [|a [|b [|c [|d [|e tagopt]]]]]; try discriminate.
      injection T as Ta _ _ _. eexists. eexists.
      split; [reflexivity|]. apply lower_j. exact Ta. }
  destruct First as [x [tl [EF Nx]]]. rewrite app_nil_r in EF.
  assert (R : clean_text
                (sp1 ++ (fence ++ b1 ++ tagopt ++ w1 ++ (i1 ++ body ++ i2)
                         ++ w2 ++ b2) ++ sp2) = body).
  { destruct b2 as [|y b2].
    - (* no closing fence: the trailing whitespace goes with the margin *)
      destruct B as [_ [ini E1]].
      replace (sp1 ++ (fence ++ b1 ++ tagopt ++ w1 ++ (i1 ++ body ++ i2)
                       ++ w2 ++ []) ++ sp2)
        with (sp1 ++ (fence ++ b1 ++ (tagopt ++ (w1 ++ i1) ++ body) ++ [])
                  ++ (i2 ++ w2 ++ sp2))
        by (rewrite !app_nil_r, <- !app_assoc; reflexivity).
      rewrite (clean_text_backticks sp1 b1 (tagopt ++ (w1 ++ i1) ++ body) []
                 (i2 ++ w2 ++ sp2) x c1 tl (tagopt ++ (w1 ++ i1) ++ ini)).
      + pose proof (after_backticks tagopt (w1 ++ i1) body [] v T W1 eq_refl V)
          as A.
        rewrite !app_nil_r in A. exact A.
      + exact G1.
      + rewrite !forallb_app, P2, F2, G2. reflexivity.
      + exact K1.
      + reflexivity.
      + exact EF.
      + rewrite E1, <- !app_assoc. reflexivity.
      + exact Nx.
      + apply value_end_not_backtick. exact V1.
      + right. apply value_end_not_space. exact V1.
    - assert (W2 : forallb py_isspace (i2 ++ w2) = true)
        by (rewrite forallb_app, F2, P2; reflexivity).
      destruct (last_with_margin (tagopt ++ (w1 ++ i1)) body (i2 ++ w2)
                                 c0 c1 B W2) as [ini [cl [EL HL]]].
      rewrite <- app_assoc in EL.
      replace (sp1 ++ (fence ++ b1 ++ tagopt ++ w1 ++ (i1 ++ body ++ i2)
                       ++ w2 ++ y :: b2) ++ sp2)
        with (sp1 ++ (fence ++ b1
                      ++ (tagopt ++ (w1 ++ i1) ++ body ++ (i2 ++ w2))
                      ++ y :: b2) ++ sp2)
        by (rewrite <- !app_assoc; reflexivity).
      rewrite (clean_text_backticks sp1 b1
                 (tagopt ++ (w1 ++ i1) ++ body ++ (i2 ++ w2)) (y :: b2)
                 sp2 x cl (tl ++ i2 ++ w2) ini).
      + apply (after_backticks tagopt (w1 ++ i1) body (i2 ++ w2) v T W1 W2 V).
      + exact G1.
      + exact G2.
      + exact K1.
      + exact K2.
      + rewrite !app_assoc. rewrite !app_assoc in EF. rewrite EF.
        reflexivity.
      + exact EL.
      + exact Nx.
      + destruct HL as [-> | HL];
          [apply value_end_not_backtick; exact V1
          |apply space_not_backtick; exact HL].
      + left. discriminate. }
  unfold extract_json. rewrite R. unfold parse_cleaned.
  rewrite (json_loads_body _ _ V). reflexivity.
Qed.

Lemma repair_fence_variants_witness :
  extract_json
    (JString (lit "\n" ++ (fence ++ lit "`" ++ [] ++ lit "\n"
                           ++ lit "{'name':'Oats'}" ++ lit "\n" ++ [])
              ++ lit " "))
  = Return (JObject [(lit "name", JString (lit "Oats"))]).
Proof.
  apply (repair_fence_variants (lit "\n") (lit "`") [] (lit "\n")
                               (lit "{'name':'Oats'}") (lit "\n") []
                               (lit " "));
    first [reflexivity | left; reflexivity].
Defined.

(* ===================================================================== *)
(** ** More on the scan for braces of lines 116-130 *)
(* ===================================================================== *)

Lemma find_bound c pre x :
  (0 <= find c (pre ++ c :: x) <= Z.of_nat (length pre))%Z.
Proof.
  induction pre as [|y pre IH]; cbn [app find length].
  - rewrite N.eqb_refl. lia.
  - destruct (y =? c); [lia|]. cbv zeta.
    destruct (find c (pre ++ c :: x) =? -1)%Z eqn:E;
      [apply Z.eqb_eq in E|]; lia.
Qed.

Lemma rfind_bound c a b : (Z.of_nat (length a) <= rfind c (a ++ c :: b))%Z.
Proof.
  induction a as [|y a IH]; cbn [app rfind length].
  - cbv zeta. pose proof (rfind_range c b) as R.
    destruct (rfind c b =? -1)%Z eqn:E.
    + rewrite N.eqb_refl. lia.
    + apply Z.eqb_neq in E. lia.
  - cbv zeta. destruct (rfind c (a ++ c :: b) =? -1)%Z eqn:E;
      [apply Z.eqb_eq in E|]; lia.
Qed.

(** There is a brace pair exactly when an opening brace is followed,
    somewhere later, by a closing brace. *)
Lemma brace_pair_iff c :
  brace_pair c = true
  <-> exists pre mid post, c = pre ++ 123 :: mid ++ 125 :: post.
Proof.
  split.
  - intros H. destruct (brace_slice_spec _ H) as [pre [mid [post [E _]]]].
    exists pre, mid, post. rewrite E. cbn [app]. rewrite <- app_assoc.
    reflexivity.
  - intros [pre [mid [post ->]]].
    pose proof (find_bound 123 pre (mid ++ 125 :: post)) as F.
    pose proof (rfind_bound 125 (pre ++ 123 :: mid) post) as R.
    rewrite <- app_assoc in R. cbn [app] in R.
    rewrite length_app in R. cbn [length] in R.
    unfold brace_pair.
    apply andb_true_iff. split; [apply andb_true_iff; split|].
    + apply negb_true_iff, Z.eqb_neq. lia.
    + apply negb_true_iff, Z.eqb_neq. lia.
    + apply Z.gtb_lt. lia.
Qed.

Lemma parse_cleaned_cases c :
  (exists v, parse_cleaned c = Return v)
  \/ parse_cleaned c
     = Raise (HTTPException 500 (lit "Failed to parse JSON from Gemini output"))
  \/ parse_cleaned c
     = Raise (HTTPException 500 (lit "No JSON found in Gemini output")).
Proof.
  unfold parse_cleaned.
  destruct (json_loads c) as [v|]; [left; exists v; reflexivity|].
  cbv zeta.
  match goal with
  | |- context [if ?b then _ else _] => destruct b
  end; [|right; right; reflexivity].
  match goal with
  | |- context [json_loads ?s] => destruct (json_loads s) as [v|]
  end; [left; exists v; reflexivity | right; left; reflexivity].
Qed.

Lemma detail_failed_not_none :
  lit "Failed to parse JSON from Gemini output"
  <> lit "No JSON found in Gemini output".
Proof. intros H. vm_compute in H. discriminate H. Qed.

(** X4. When the direct parse of the cleaned text fails, the error
    [No JSON found in Gemini output] is raised exactly when no opening
    brace of the text is followed, somewhere later, by a closing brace. *)
Theorem no_json_found_iff c :
  json_loads c = None ->
  (parse_cleaned c
   = Raise (HTTPException 500 (lit "No JSON found in Gemini output"))
   <-> ~ exists pre mid post, c = pre ++ 123 :: mid ++ 125 :: post).
Proof.
  intros H. split.
  - intros E P. apply brace_pair_iff in P.
    rewrite (parse_cleaned_brace _ H P) in E.
    destruct (json_loads (brace_slice c)); [discriminate E|].
    apply detail_failed_not_none. congruence.
  - intros N. apply parse_cleaned_no_brace; [exact H|].
    destruct (brace_pair c) eqn:P; [|reflexivity].
    exfalso. apply N, brace_pair_iff. exact P.
Qed.

Lemma no_json_found_iff_witness :
  parse_cleaned (lit "} nothing {")
  = Raise (HTTPException 500 (lit "No JSON found in Gemini output"))
  <-> ~ exists pre mid post,
          lit "} nothing {" = pre ++ 123 :: mid ++ 125 :: post.
Proof.
  apply (no_json_found_iff (lit "} nothing {")). vm_compute. reflexivity.
Defined.

(* ===================================================================== *)
(** ** More on the operation: requests sent and outcomes *)
(* ===================================================================== *)

Lemma run_logs ostr oflt req w :
  snd (run (parse_label_route ostr oflt req) w)
  = snd (run (call_gemini (image_base64 req) (label_type_arg req)) w)
  /\ snd (run (parse_label req) w)
     = snd (run (call_gemini (image_base64 req) (label_type_arg req)) w).
Proof.
  rewrite run_parse_label_route, run_parse_label.
  destruct (run (call_gemini (image_base64 req) (label_type_arg req)) w)
    as [[parsed|e] log]; split; try reflexivity.
  cbn [snd]. destruct (normalize parsed); reflexivity.
Qed.

(** X6. An invocation sends at most one request: none when the API key is
    unset or empty, and otherwise exactly one, to the endpoint, with the
    key of the environment, the image of the request and its label type
    ([nutrition] when the request has none), whatever the remote end
    answers and however the invocation ends. *)
Theorem one_request_per_invocation ostr oflt w req :
  snd (run (parse_label_route ostr oflt req) w)
  = match environ w GEMINI_API_KEY with
    | Some (c :: k) =>
        [mkRequest GEMINI_ENDPOINT (c :: k) (lit "application/json")
                   (payload (image_base64 req) (label_type_arg req)) 30]
    | _ => []
    end.
Proof.
  rewrite (proj1 (run_logs ostr oflt req w)).
  destruct (environ w GEMINI_API_KEY) as [[|c k]|] eqn:K.
  - rewrite run_call_gemini_no_key by (right; exact K). reflexivity.
  - rewrite (run_call_gemini_key _ _ _ _ _ K). reflexivity.
  - rewrite run_call_gemini_no_key by (left; exact K). reflexivity.
Qed.

(** X7. A transport failure of the request is reported as an
    [HTTPException] of status 502 whose message is
    [Gemini request failed: ] followed by the text of the failure. *)
Theorem transport_failure_is_502 ostr oflt w req c k msg :
  environ w GEMINI_API_KEY = Some (c :: k) ->
  remote w (gemini_request (c :: k) (image_base64 req) (label_type_arg req))
  = RequestException msg ->
  fst (run (parse_label_route ostr oflt req) w)
  = Raise (HTTPException 502 (lit "Gemini request failed: " ++ msg))
  /\ contains msg (lit "Gemini request failed: " ++ msg).
Proof.
  intros K R. split; [|apply contains_suffix].
  assert (H : run (parse_label req) w
              = (Raise (UpstreamUnavailableError msg),
                 [gemini_request (c :: k) (image_base64 req)
                                 (label_type_arg req)])).
  { apply handler_raises. rewrite (run_call_gemini_key _ _ _ _ _ K), R.
    reflexivity. }
  rewrite (route_raises ostr oflt _ _ _ _ H). reflexivity.
Qed.

Lemma transport_failure_is_502_witness :
  fst (run (parse_label_route strict_str strict_float example_request)
           (world_with (Some (lit "secret"))
                       (RequestException (lit "timed out"))))
  = Raise (HTTPException 502 (lit "Gemini request failed: " ++ lit "timed out"))
  /\ contains (lit "timed out")
              (lit "Gemini request failed: " ++ lit "timed out").
Proof.
  apply (transport_failure_is_502 strict_str strict_float
           (world_with (Some (lit "secret"))
                       (RequestException (lit "timed out")))
           example_request 115 (lit "ecret") (lit "timed out")).
  - vm_compute. reflexivity.
  - reflexivity.
Defined.

(** X8. An answer 200 whose body is not JSON is not turned into an
    [HTTPException]: [resp.json()] stands outside the [try], and its
    exception leaves the operation as it is. *)
Theorem non_json_body_unhandled ostr oflt w req c k resp_text :
  environ w GEMINI_API_KEY = Some (c :: k) ->
  remote w (gemini_request (c :: k) (image_base64 req) (label_type_arg req))
  = Response 200 resp_text ->
  json_loads resp_text = None ->
  fst (run (parse_label_route ostr oflt req) w)
  = Raise ResponseJSONDecodeError.
Proof.
  intros K R J.
  assert (H : run (parse_label req) w
              = (Raise ResponseJSONDecodeError,
                 [gemini_request (c :: k) (image_base64 req)
                                 (label_type_arg req)])).
  { apply handler_raises. rewrite (run_call_gemini_key _ _ _ _ _ K), R.
    change (negb (200 =? 200)%Z) with false. cbv iota.
    unfold resp_json. rewrite J. reflexivity. }
  rewrite (route_raises ostr oflt _ _ _ _ H). reflexivity.
Qed.

Lemma non_json_body_unhandled_witness :
  fst (run (parse_label_route strict_str strict_float example_request)
           (world_with (Some (lit "secret"))
                       (Response 200 (lit "<html>busy</html>"))))
  = Raise ResponseJSONDecodeError.
Proof.
  apply (non_json_body_unhandled strict_str strict_float
           (world_with (Some (lit "secret"))
                       (Response 200 (lit "<html>busy</html>")))
           example_request 115 (lit "ecret") (lit "<html>busy</html>"));
    vm_compute; reflexivity.
Defined.

(** X9. When the envelope has the structural path but what it holds
    there is not a string (a number, [null], a list, an object), the
    [strip] of line 107 raises [AttributeError], which nothing catches. *)
Theorem non_string_text_unhandled ostr oflt w req t :
  upstream_answers w req t ->
  (forall s, t <> JString s) ->
  fst (run (parse_label_route ostr oflt req) w) = Raise AttributeError.
Proof.
  intros U N. destruct (run_call_gemini_answers _ _ _ U) as [r R].
  assert (E : extract_json t = Raise AttributeError).
  { destruct t; try reflexivity. exfalso. apply (N s). reflexivity. }
  rewrite E in R. pose proof (handler_raises _ _ _ _ R) as H.
  rewrite (route_raises ostr oflt _ _ _ _ H). reflexivity.
Qed.

Lemma non_string_text_unhandled_witness :
  fst (run (parse_label_route strict_str strict_float example_request)
           (world_with (Some (lit "secret"))
              (Response 200
                 (lit "{'candidates':[{'content':{'parts':[{'text':42}]}}]}"))))
  = Raise AttributeError.
Proof.
  apply (non_string_text_unhandled strict_str strict_float
           (world_with (Some (lit "secret"))
              (Response 200
                 (lit "{'candidates':[{'content':{'parts':[{'text':42}]}}]}")))
           example_request (JInt 42)).
  - exists 115, (lit "ecret"),
      (lit "{'candidates':[{'content':{'parts':[{'text':42}]}}]}").
    eexists. split; [vm_compute; reflexivity|].
    split; [reflexivity|]. split; vm_compute; reflexivity.
  - intros s. discriminate.
Defined.

(** X10. The lookup of lines 101-104 succeeds exactly on an envelope
    that is an object whose [candidates] is a list with a first element,
    an object whose [content] is an object whose [parts] is a list with a
    first element, an object with a [text]; it then returns that [text].
    A string in the place of a list fails, although it can be indexed. *)
Theorem envelope_text_iff data t :
  envelope_text data = Return t <-> structural_path data = Some t.
Proof.
  pose proof (envelope_text_path data) as H.
  destruct (structural_path data) as [t'|].
  - rewrite H. split; intros E; congruence.
  - destruct H as [e H]. rewrite H. split; intros E; discriminate E.
Qed.

Lemma validate_response_cases ostr oflt r :
  (exists resp, validate_response ostr oflt r = Return resp)
  \/ validate_response ostr oflt r = Raise ResponseValidationError.
Proof.
  unfold validate_response. destruct r; try (right; reflexivity).
  repeat match goal with
         | |- context [match ?x with Some _ => _ | None => _ end] =>
             destruct x; try (right; reflexivity)
         end.
  left. eexists. reflexivity.
Qed.

(** Everything that can come out of the route. *)
Lemma route_outcome_cases ostr oflt w req :
  (exists resp, fst (run (parse_label_route ostr oflt req) w) = Return resp)
  \/ fst (run (parse_label_route ostr oflt req) w) = Raise AttributeError
  \/ fst (run (parse_label_route ostr oflt req) w)
     = Raise ResponseJSONDecodeError
  \/ fst (run (parse_label_route ostr oflt req) w)
     = Raise ResponseValidationError
  \/ (exists detail,
        fst (run (parse_label_route ostr oflt req) w)
        = Raise (HTTPException 500 detail))
  \/ (exists msg r,
        remote w r = RequestException msg
        /\ fst (run (parse_label_route ostr oflt req) w)
           = Raise (UpstreamUnavailableError msg))
  \/ (exists status_code resp_text r,
        remote w r = Response status_code resp_text
        /\ status_code <> 200%Z
        /\ fst (run (parse_label_route ostr oflt req) w)
           = Raise (UpstreamError status_code resp_text)).
Proof.
  rewrite run_parse_label_route, run_parse_label.
  assert (NoKey :
    environ w GEMINI_API_KEY = None \/ environ w GEMINI_API_KEY = Some [] ->
    exists detail,
      fst (match
              match run (call_gemini (image_base64 req) (label_type_arg req))
                        w with
              | (Return parsed, log) => (normalize parsed, log)
              | (Raise e, log) => (Raise e, log)
              end
            with
            | (Return resp, log) => (validate_response ostr oflt resp, log)
            | (Raise e, log) => (Raise e, log)
            end) = Raise (HTTPException 500 detail)).
  { intros H. rewrite (run_call_gemini_no_key _ _ _ H).
    eexists. reflexivity. }
  destruct (environ w GEMINI_API_KEY) as [[|c k]|] eqn:K;
    [do 4 right; left; apply NoKey; right; reflexivity
    | | do 4 right; left; apply NoKey; left; reflexivity].
  clear NoKey. rewrite (run_call_gemini_key _ _ _ _ _ K).
  destruct (remote w (gemini_request (c :: k) (image_base64 req)
                                     (label_type_arg req)))
    as [msg | status_code resp_text] eqn:R.
  { do 5 right. left. exists msg. eexists. split; [exact R|]. reflexivity. }
  destruct (status_code =? 200)%Z eqn:S.
  2:{ do 6 right. exists status_code, resp_text. eexists.
      split; [exact R|]. split; [apply Z.eqb_neq; exact S|]. reflexivity. }
  cbn [negb]. unfold resp_json.
  destruct (json_loads resp_text) as [data|];
    [|do 2 right; left; reflexivity].
  destruct (envelope_text data) as [t|e];
    [|do 4 right; left; eexists; reflexivity].
  destruct t as [| | | |s| |];
    try (right; left; reflexivity).
  unfold extract_json.
  destruct (parse_cleaned_cases (clean_text s)) as [[v ->] | [-> | ->]];
    [| do 4 right; left; eexists; reflexivity
     | do 4 right; left; eexists; reflexivity].
  destruct v as [| | | | | |d]; try (right; left; reflexivity).
  rewrite normalize_object. cbn [fst].
  match goal with
  | |- context [validate_response ostr oflt ?r] =>
      destruct (validate_response_cases ostr oflt r) as [[resp ->] | ->]
  end.
  - left. exists resp. reflexivity.
  - do 3 right. left. reflexivity.
Qed.

(** X11. The exceptions of the subscripts of line 102 never leave the
    operation: whatever the environment and the remote end, it raises no
    [KeyError], [IndexError] or [TypeError]. *)
Theorem lookup_errors_never_escape ostr oflt w req e :
  fst (run (parse_label_route ostr oflt req) w) = Raise e ->
  e <> KeyError /\ e <> IndexError /\ e <> TypeError.
Proof.
  intros H.
  destruct (route_outcome_cases ostr oflt w req)
    as [[resp E] | [E | [E | [E | [[d E] | [[m [r [_ E]]]
                                          | [s [b [r [_ [_ E]]]]]]]]]]];
    rewrite E in H; try discriminate H; injection H as <-;
      repeat split; discriminate.
Qed.

Lemma lookup_errors_never_escape_witness :
  MalformedUpstreamResponseError <> KeyError
  /\ MalformedUpstreamResponseError <> IndexError
  /\ MalformedUpstreamResponseError <> TypeError.
Proof.
  apply (lookup_errors_never_escape strict_str strict_float
           (world_with (Some (lit "secret"))
                       (Response 200 (lit "{'candidates':'abc'}")))
           example_request).
  vm_compute. reflexivity.
Defined.

(** X12. An [HTTPException] of the operation never has status 200: its
    status is 500, or 502 for a failed request, or the status of an
    answer of the remote end that was not 200. *)
Theorem error_status_never_200 ostr oflt w req status_code detail :
  fst (run (parse_label_route ostr oflt req) w)
  = Raise (HTTPException status_code detail) ->
  status_code <> 200%Z
  /\ (status_code = 500%Z
      \/ (status_code = 502%Z /\ exists msg r, remote w r = RequestException msg)
      \/ exists resp_text r, remote w r = Response status_code resp_text).
Proof.
  intros H.
  destruct (route_outcome_cases ostr oflt w req)
    as [[resp E] | [E | [E | [E | [[d E] | [[m [r [R E]]]
                                          | [s [b [r [R [N E]]]]]]]]]]];
    rewrite E in H; try discriminate H.
  - injection H as <- _. split; [discriminate|]. left. reflexivity.
  - unfold UpstreamUnavailableError in H. injection H as <- _.
    split; [discriminate|]. right. left. split; [reflexivity|]. eauto.
  - unfold UpstreamError in H. injection H as <- _.
    split; [exact N|]. right. right. eauto.
Qed.

Lemma error_status_never_200_witness :
  (404 <> 200)%Z
  /\ (404 = 500
      \/ (404 = 502
          /\ exists msg r,
               remote (world_with (Some (lit "secret"))
                                  (Response 404 (lit "gone"))) r
               = RequestException msg)
      \/ exists resp_text r,
           remote (world_with (Some (lit "secret"))
                              (Response 404 (lit "gone"))) r
           = Response 404 resp_text)%Z.
Proof.
  apply (error_status_never_200 strict_str strict_float
           (world_with (Some (lit "secret")) (Response 404 (lit "gone")))
           example_request 404%Z (lit "Gemini error: gone")).
  vm_compute. reflexivity.
Defined.

(** X13. The message for an answer that is not 200 carries at most 500
    characters of the body: it has 14 characters and then the body, cut
    at 500. *)
Theorem upstream_error_message_bound ostr oflt w req c k status_code
    resp_text :
  environ w GEMINI_API_KEY = Some (c :: k) ->
  remote w (gemini_request (c :: k) (image_base64 req) (label_type_arg req))
  = Response status_code resp_text ->
  status_code <> 200%Z ->
  exists detail,
    fst (run (parse_label_route ostr oflt req) w)
    = Raise (HTTPException status_code detail)
    /\ length detail = (14 + Nat.min 500 (length resp_text))%nat
    /\ (length detail <= 514)%nat.
Proof.
  intros K R N.
  assert (H : run (parse_label req) w
              = (Raise (UpstreamError status_code resp_text),
                 [gemini_request (c :: k) (image_base64 req)
                                 (label_type_arg req)])).
  { apply handler_raises. rewrite (run_call_gemini_key _ _ _ _ _ K), R.
    apply Z.eqb_neq in N. rewrite N. reflexivity. }
  exists (lit "Gemini error: " ++ slice_to resp_text 500).
  rewrite (route_raises ostr oflt _ _ _ _ H).
  split; [reflexivity|].
  assert (L : length (lit "Gemini error: " ++ slice_to resp_text 500)
              = (14 + Nat.min 500 (length resp_text))%nat).
  { rewrite length_app. unfold slice_to. rewrite length_firstn.
    reflexivity. }
  split; [exact L|]. rewrite L. lia.
Qed.

Lemma upstream_error_message_bound_witness :
  exists detail,
    fst (run (parse_label_route strict_str strict_float example_request)
             (world_with (Some (lit "secret"))
                (Response 503 (repeat 120 600))))
    = Raise (HTTPException 503 detail)
    /\ length detail = (14 + Nat.min 500 (length (repeat 120 600)))%nat
    /\ (length detail <= 514)%nat.
Proof.
  apply (upstream_error_message_bound strict_str strict_float
           (world_with (Some (lit "secret"))
              (Response 503 (repeat 120 600)))
           example_request 115 (lit "ecret") 503%Z (repeat 120 600)).
  - vm_compute. reflexivity.
  - reflexivity.
  - discriminate.
Defined.

(** X14. The handler returns a dict exactly when every stage succeeded:
    there is a key, the remote end answered 200 with a JSON envelope that
    holds a string at the structural path, the repair of that string gave
    an object, and the dict is the normalization of that object. There is
    no partial result. *)
Theorem handler_success_iff w req resp :
  fst (run (parse_label req) w) = Return resp
  <-> exists t d,
        upstream_answers w req (JString t)
        /\ extract_json (JString t) = Return (JObject d)
        /\ normalize (JObject d) = Return resp.
Proof.
  split.
  - rewrite run_parse_label.
    destruct (environ w GEMINI_API_KEY) as [[|c k]|] eqn:K.
    + rewrite run_call_gemini_no_key by (right; exact K). discriminate.
    + rewrite (run_call_gemini_key _ _ _ _ _ K).
      destruct (remote w (gemini_request (c :: k) (image_base64 req)
                                         (label_type_arg req)))
        as [msg | status_code resp_text] eqn:R; [discriminate|].
      destruct (status_code =? 200)%Z eqn:S; [|discriminate].
      apply Z.eqb_eq in S. subst status_code. cbn [negb]. unfold resp_json.
      destruct (json_loads resp_text) as [data|] eqn:J; [|discriminate].
      destruct (envelope_text data) as [t|e] eqn:E; [|discriminate].
      destruct t as [| | | |s| |]; try discriminate.
      destruct (extract_json (JString s)) as [v|e] eqn:X; [|discriminate].
      destruct v as [| | | | | |d]; try discriminate.
      cbn [fst]. intros N. exists s, d.
      split; [|split; [exact X | exact N]].
      exists c, k, resp_text, data. auto.
    + rewrite run_call_gemini_no_key by (left; exact K). discriminate.
  - intros [t [d [U [X N]]]].
    destruct (run_call_gemini_answers _ _ _ U) as [r R].
    rewrite run_parse_label, R, X. exact N.
Qed.

(* ===================================================================== *)
(** ** More on the response *)
(* ===================================================================== *)

(** The response model on the dict of the handler, field by field. *)
Lemma validate_normalized ostr oflt d :
  validate_response ostr oflt
    (JObject
       [(lit "name", dict_get d (lit "name"));
        (lit "serving_size_g", dict_get d (lit "serving_size_g"));
        (lit "per_100g", py_or (dict_get d (lit "per_100g")) (JObject []));
        (lit "per_serving", dict_get d (lit "per_serving"));
        (lit "notes", dict_get d (lit "notes"));
        (lit "raw", JObject d)])
  = match ostr (dict_get d (lit "name")),
          oflt (dict_get d (lit "serving_size_g")),
          dict_str_any (py_or (dict_get d (lit "per_100g")) (JObject [])),
          optional_dict_str_any (dict_get d (lit "per_serving")),
          ostr (dict_get d (lit "notes")) with
    | Some name, Some serving, Some per_100g, Some per_serving, Some notes =>
        Return (JObject
                  [(lit "name", name);
                   (lit "serving_size_g", serving);
                   (lit "per_100g", per_100g);
                   (lit "per_serving", per_serving);
                   (lit "notes", notes);
                   (lit "raw", JObject d)])
    | _, _, _, _, _ => Raise ResponseValidationError
    end.
Proof.
  unfold validate_response.
  change (field _ (lit "name") JNull) with (dict_get d (lit "name")).
  change (field _ (lit "serving_size_g") JNull)
    with (dict_get d (lit "serving_size_g")).
  change (field _ (lit "per_100g") (JObject []))
    with (py_or (dict_get d (lit "per_100g")) (JObject [])).
  change (field _ (lit "per_serving") JNull)
    with (dict_get d (lit "per_serving")).
  change (field _ (lit "notes") JNull) with (dict_get d (lit "notes")).
  change (field _ (lit "raw") JNull) with (JObject d).
  destruct (ostr (dict_get d (lit "name"))); [|reflexivity].
  destruct (oflt (dict_get d (lit "serving_size_g"))); [|reflexivity].
  destruct (dict_str_any (py_or (dict_get d (lit "per_100g")) (JObject [])));
    [|reflexivity].
  destruct (optional_dict_str_any (dict_get d (lit "per_serving")));
    [|reflexivity].
  destruct (ostr (dict_get d (lit "notes"))); reflexivity.
Qed.

(** The route on an answer whose repair is the object [d]. *)
Lemma run_route_object ostr oflt w req t d :
  upstream_answers w req (JString t) ->
  extract_json (JString t) = Return (JObject d) ->
  fst (run (parse_label_route ostr oflt req) w)
  = validate_response ostr oflt
      (JObject
         [(lit "name", dict_get d (lit "name"));
          (lit "serving_size_g", dict_get d (lit "serving_size_g"));
          (lit "per_100g", py_or (dict_get d (lit "per_100g")) (JObject []));
          (lit "per_serving", dict_get d (lit "per_serving"));
          (lit "notes", dict_get d (lit "notes"));
          (lit "raw", JObject d)]).
Proof.
  intros U X. destruct (run_call_gemini_answers _ _ _ U) as [r R].
  rewrite run_parse_label_route, run_parse_label, R, X, normalize_object.
  reflexivity.
Qed.

(** X15. A [per_100g] that is truthy and not a mapping (a number, a
    string, a list) is never returned: the handler keeps it in its dict,
    and the response model of the route refuses the dict. *)
Theorem non_mapping_per_100g_refused ostr oflt w req t d p :
  upstream_answers w req (JString t) ->
  extract_json (JString t) = Return (JObject d) ->
  dict_lookup d (lit "per_100g") = Some p ->
  truthy p = true -> is_object p = false ->
  fst (run (parse_label_route ostr oflt req) w)
  = Raise ResponseValidationError
  /\ exists r,
       fst (run (parse_label req) w) = Return (JObject r)
       /\ dict_lookup r (lit "per_100g") = Some p.
Proof.
  intros U X L T O. split.
  - rewrite (run_route_object ostr oflt _ _ _ _ U X), validate_normalized.
    unfold dict_get at 3. rewrite L. unfold py_or. rewrite T.
    assert (D : dict_str_any p = None) by (destruct p; try reflexivity;
                                            discriminate O).
    rewrite D.
    destruct (ostr (dict_get d (lit "name"))); [|reflexivity].
    destruct (oflt (dict_get d (lit "serving_size_g"))); reflexivity.
  - destruct (run_call_gemini_answers _ _ _ U) as [r R].
    rewrite run_parse_label, R, X, normalize_object. eexists.
    split; [reflexivity|].
    change (dict_lookup _ (lit "per_100g"))
      with (Some (py_or (dict_get d (lit "per_100g")) (JObject []))).
    unfold dict_get, py_or. rewrite L, T. reflexivity.
Qed.

Lemma non_mapping_per_100g_refused_witness :
  fst (run (parse_label_route strict_str strict_float example_request)
           (world_with (Some (lit "secret"))
              (Response 200
                 (envelope_around (lit "{\'per_100g\':[1]}")))))
  = Raise ResponseValidationError
  /\ exists r,
       fst (run (parse_label example_request)
                (world_with (Some (lit "secret"))
                   (Response 200
                      (envelope_around (lit "{\'per_100g\':[1]}")))))
       = Return (JObject r)
       /\ dict_lookup r (lit "per_100g") = Some (JArray [JInt 1]).
Proof.
  apply (non_mapping_per_100g_refused strict_str strict_float
           (world_with (Some (lit "secret"))
              (Response 200 (envelope_around (lit "{\'per_100g\':[1]}"))))
           example_request (lit "{'per_100g':[1]}")
           [(lit "per_100g", JArray [JInt 1])] (JArray [JInt 1])).
  - exists 115, (lit "ecret"),
      (envelope_around (lit "{\'per_100g\':[1]}")).
    eexists. split; [vm_compute; reflexivity|].
    split; [reflexivity|]. split; vm_compute; reflexivity.
  - vm_compute. reflexivity.
  - vm_compute. reflexivity.
  - reflexivity.
  - reflexivity.
Defined.

(** X16. [per_serving] has no default, unlike [per_100g]: in a
    successful response it is [null] exactly when the repaired object has
    no [per_serving] or a [null] one; otherwise the repaired object holds
    a mapping there and the response holds a mapping with the same keys.
    A [per_serving] that is falsy without being [null] or a mapping (0,
    an empty string, an empty list, [false]) is not replaced by a
    default: there is then no successful response. *)
Theorem per_serving_has_no_default ostr oflt w req resp :
  fst (run (parse_label_route ostr oflt req) w) = Return resp ->
  exists d r,
    fst (run (call_gemini (image_base64 req) (label_type_arg req)) w)
    = Return (JObject d)
    /\ resp = JObject r
    /\ ((dict_get d (lit "per_serving") = JNull
         /\ dict_lookup r (lit "per_serving") = Some JNull)
        \/ exists m m',
             dict_lookup d (lit "per_serving") = Some (JObject m)
             /\ dict_lookup r (lit "per_serving") = Some (JObject m')
             /\ map fst m' = map fst m).
Proof.
  rewrite run_parse_label_route.
  destruct (run (parse_label req) w) as [[r0|e] log] eqn:R0;
    cbn [fst]; [|discriminate].
  assert (R' : fst (run (parse_label req) w) = Return r0)
    by (rewrite R0; reflexivity).
  apply handler_returns in R'. destruct R' as [d [C N]].
  rewrite normalize_object in N. injection N as <-.
  rewrite validate_normalized. intros H.
  exists d.
  destruct (ostr (dict_get d (lit "name"))) as [name|]; [|discriminate H].
  destruct (oflt (dict_get d (lit "serving_size_g"))) as [serving|];
    [|discriminate H].
  destruct (dict_str_any (py_or (dict_get d (lit "per_100g")) (JObject [])))
    as [p100|]; [|discriminate H].
  destruct (optional_dict_str_any (dict_get d (lit "per_serving")))
    as [ps|] eqn:PS; [|discriminate H].
  destruct (ostr (dict_get d (lit "notes"))) as [notes|]; [|discriminate H].
  injection H as <-. eexists.
  split; [exact C|]. split; [reflexivity|].
  match goal with
  | |- context [dict_lookup ?r (lit "per_serving") = Some JNull] =>
      change (dict_lookup r (lit "per_serving")) with (Some ps)
  end.
  unfold dict_get in *.
  destruct (dict_lookup d (lit "per_serving")) as [x|].
  - destruct x; try discriminate PS; injection PS as <-.
    + left. split; reflexivity.
    + right. eexists. eexists. split; [reflexivity|].
      split; reflexivity.
  - injection PS as <-. left. split; reflexivity.
Qed.

Lemma per_serving_has_no_default_witness :
  exists d r,
    fst (run (call_gemini (image_base64 example_request)
                          (label_type_arg example_request))
             (world_with (Some (lit "secret"))
                (Response 200
                   (envelope_around (lit "{\'per_serving\':{}}")))))
    = Return (JObject d)
    /\ JObject [(lit "name", JNull);
                (lit "serving_size_g", JNull);
                (lit "per_100g", JObject []);
                (lit "per_serving", JObject []);
                (lit "notes", JNull);
                (lit "raw", JObject [(lit "per_serving", JObject [])])]
       = JObject r
    /\ ((dict_get d (lit "per_serving") = JNull
         /\ dict_lookup r (lit "per_serving") = Some JNull)
        \/ exists m m',
             dict_lookup d (lit "per_serving") = Some (JObject m)
             /\ dict_lookup r (lit "per_serving") = Some (JObject m')
             /\ map fst m' = map fst m).
Proof.
  apply (per_serving_has_no_default strict_str strict_float).
  vm_compute. reflexivity.
Defined.

(* ===================================================================== *)
(** ** An object between prose *)
(* ===================================================================== *)

(** A text whose first character is neither whitespace nor the first
    character of a JSON value is refused by [json.loads]. *)
Lemma json_loads_bad_start c s :
  value_start c = false -> is_json_ws c = false ->
  json_loads (c :: s) = None.
Proof.
  intros V W. destruct (json_loads (c :: s)) as [v|] eqn:J; [|reflexivity].
  exfalso. apply json_loads_inv in J.
  destruct J as [w1 [body [w2 [E [F1 [_ B]]]]]].
  destruct B as [n [c0 [c1 [[[tl ->] _] [V0 _]]]]].
  destruct w1 as [|x w1]; simpl in E; injection E as E _.
  - congruence.
  - subst x. simpl in F1. apply andb_true_iff in F1. destruct F1 as [F1 _].
    congruence.
Qed.

(** A document followed by something else than whitespace is refused by
    [json.loads] (its error is "Extra data"). *)
Lemma json_loads_extra_data w1 body v t :
  value_text body v -> forallb is_json_ws w1 = true ->
  value_stop t = true -> skip_ws t <> [] ->
  json_loads (w1 ++ body ++ t) = None.
Proof.
  intros [n [c0 [c1 [B [V0 [V1 [_ [_ L]]]]]]]] F1 St Ne. unfold json_loads.
  destruct B as [[tl E0] _]. subst body.
  assert (Bom : startswith (w1 ++ (c0 :: tl) ++ t) [65279] = false).
  { destruct w1 as [|x w1].
    - apply startswith_bom_false, value_start_not_bom, V0.
    - apply startswith_bom_false, ws_not_bom.
      simpl in F1. apply andb_true_iff in F1. tauto. }
  rewrite Bom, skip_ws_all by exact F1.
  cbn [app]. rewrite skip_ws_stop by (apply value_start_not_ws; exact V0).
  change (c0 :: tl ++ t) with ((c0 :: tl) ++ t).
  rewrite (scan_once_any_fuel n _ v t) by (apply L; exact St).
  destruct (skip_ws t); [contradiction Ne|]; reflexivity.
Qed.

(** The scan for braces on an object between prose, once the direct
    parse has failed. *)
Lemma brace_scan_between_prose c p1 doc p2 d :
  c = p1 ++ doc ++ p2 ->
  json_loads c = None ->
  find 123 p1 = (-1)%Z -> rfind 125 p2 = (-1)%Z ->
  json_loads doc = Some (JObject d) ->
  parse_cleaned c = Return (JObject d).
Proof.
  intros Ec H A1 A2 J. apply json_loads_inv in J.
  destruct J as [w1 [body [w2 [-> [F1 [F2 V]]]]]].
  pose proof (json_loads_body _ _ V) as Jb.
  destruct V as [n [c0 [c1 [B [_ [_ [O _]]]]]]].
  destruct (O eq_refl) as [-> ->].
  assert (Ec' : c = (p1 ++ w1) ++ body ++ (w2 ++ p2))
    by (rewrite Ec, <- !app_assoc; reflexivity).
  assert (A1' : find 123 (p1 ++ w1) = (-1)%Z).
  { rewrite (find_absent_app _ _ _ A1), (find_ws 123 w1) by auto.
    reflexivity. }
  assert (A2' : rfind 125 (w2 ++ p2) = (-1)%Z).
  { rewrite (rfind_app_absent _ _ _ A2). apply rfind_ws; auto. }
  destruct (brace_slice_prose _ _ _ B A1' A2') as [P S].
  rewrite <- Ec' in P, S.
  rewrite (parse_cleaned_brace _ H P), S, Jb. reflexivity.
Qed.

(** X18. An object between prose is recovered, with nothing assumed
    about the direct parse: when the cleaned text is [p1 ++ doc ++ p2]
    where [doc] is a JSON document whose value is an object, [p1] has no
    opening brace, [p2] has no closing brace, and either [p1] begins with
    a character that is neither whitespace nor the beginning of a JSON
    value, or [p1] is empty and [p2] holds something else than
    whitespace and does not begin with a digit, a dot or an exponent
    mark, the repair returns the object of [doc]. *)
Theorem repair_object_in_prose t p1 doc p2 d :
  clean_text t = p1 ++ doc ++ p2 ->
  json_loads doc = Some (JObject d) ->
  find 123 p1 = (-1)%Z -> rfind 125 p2 = (-1)%Z ->
  (exists c tl, p1 = c :: tl /\ value_start c = false
                /\ is_json_ws c = false)
  \/ (p1 = [] /\ value_stop p2 = true /\ skip_ws p2 <> []) ->
  json_loads (clean_text t) = None
  /\ extract_json (JString t) = Return (JObject d).
Proof.
  intros Ec J A1 A2 P.
  assert (H : json_loads (clean_text t) = None).
  { rewrite Ec. destruct P as [[c [tl [-> [V W]]]] | [-> [St Ne]]].
    - cbn [app]. apply json_loads_bad_start; assumption.
    - cbn [app]. apply json_loads_inv in J.
      destruct J as [w1 [body [w2 [-> [F1 [F2 V]]]]]].
      rewrite <- !app_assoc.
      apply (json_loads_extra_data _ _ _ _ V F1).
      + destruct w2 as [|x w2]; [exact St|].
        simpl. simpl in F2. apply andb_true_iff in F2. destruct F2 as [F2 _].
        clear - F2. char_classes.
      + rewrite skip_ws_all by exact F2. exact Ne. }
  split; [exact H|]. unfold extract_json.
  apply (brace_scan_between_prose _ p1 doc p2 d Ec H A1 A2 J).
Qed.

Lemma repair_object_in_prose_witness :
  json_loads (clean_text (lit "{'name':'Rye'} as read from the label"))
  = None
  /\ extract_json (JString (lit "{'name':'Rye'} as read from the label"))
     = Return (JObject [(lit "name", JString (lit "Rye"))]).
Proof.
  apply (repair_object_in_prose
           (lit "{'name':'Rye'} as read from the label")
           [] (lit "{'name':'Rye'} ") (lit "as read from the label")
           [(lit "name", JString (lit "Rye"))]).
  - vm_compute. reflexivity.
  - vm_compute. reflexivity.
  - reflexivity.
  - vm_compute. reflexivity.
  - right. split; [reflexivity|]. split; [reflexivity|].
    vm_compute. discriminate.
Defined.
